(** * Galton board simulation (galton.py): layout, collision classifier,
      spawner, main loop and audio synthesis.

    The program is a Python script.  Its floating-point quantities
    (coordinates, seconds, audio samples) are modelled over exact rational
    arithmetic: [Q] for coordinates and times, canonical rationals [Qc] for
    audio samples.  Integers ([int]) are [Z].  Calls into pygame, pymunk and
    the random generator are inputs of the model: clock readings, quit events,
    contact callbacks and jitter values arrive in a per-tick record. *)

From Stdlib Require Import ZArith QArith Qcanon Qround Qabs.
From Stdlib Require Import List Bool Lia Lqa Permutation Sorted.
Import ListNotations.

(* ================================================================== *)
(** ** Python primitives used by the script *)
(* ================================================================== *)

Module Py.

Inductive Exn := ZeroDivisionError | ValueError.

(** [int(x)] on a float: truncation toward zero. *)
Definition int (x : Q) : Z := Z.quot (Qnum x) (Z.pos (Qden x)).

(** [a / b]: true division, raising on a zero divisor. *)
Definition truediv (a b : Q) : Exn + Q :=
  if Qeq_bool b 0 then inl ZeroDivisionError else inr (a / b)%Q.

(** [range(n)]: 0, 1, ..., n-1; empty when n <= 0. *)
Definition range (n : Z) : list Z := map Z.of_nat (seq 0 (Z.to_nat n)).

(** [abs(x)]. *)
Definition abs (x : Q) : Q := Qabs x.

(** [a > b] on numbers. *)
Definition gt (a b : Q) : bool := negb (Qle_bool a b).

(** [a >= b] on numbers. *)
Definition ge (a b : Q) : bool := Qle_bool b a.

End Py.

(* ================================================================== *)
(** ** CONFIGURATION *)
(* ================================================================== *)

Record Config := {
  SCREEN_WIDTH : Z;
  SCREEN_HEIGHT : Z;
  FPS : Z;
  LEVELS : Z;
  BALL_COUNT : Z;
  DROP_INTERVAL : Q;
  BALL_SIZE : Q;
  PEG_SIZE : Q;
  BALL_MASS : Z;
  FRICTION : Q;
  BALL_ELASTICITY : Q;
  PEG_ELASTICITY : Q;
  SPAWN_RANGE : Z;
  SAMPLE_RATE : Z;
  VELOCITY_THRESHOLD : Z;
  FLOOR_THICKNESS : Z;
  VISUAL_OFFSET : Z;
  SUBSTEPS : Z
}.

Definition BALL_RADIUS (c : Config) : Z :=
  Py.int (inject_Z (SCREEN_WIDTH c) * BALL_SIZE c).

Definition PEG_RADIUS (c : Config) : Z :=
  Py.int (inject_Z (SCREEN_WIDTH c) * PEG_SIZE c).

(** The constants of galton.py. *)
Definition galton : Config := {|
  SCREEN_WIDTH := 512;
  SCREEN_HEIGHT := 768;
  FPS := 60;
  LEVELS := 10;
  BALL_COUNT := 200;
  DROP_INTERVAL := 0.25;
  BALL_SIZE := 0.01;
  PEG_SIZE := 0.005;
  BALL_MASS := 10;
  FRICTION := 10.0;
  BALL_ELASTICITY := 0.0;
  PEG_ELASTICITY := 0.0;
  SPAWN_RANGE := 2;
  SAMPLE_RATE := 44100;
  VELOCITY_THRESHOLD := 50;
  FLOOR_THICKNESS := 5;
  VISUAL_OFFSET := 10;
  SUBSTEPS := 3
|}.


Definition with_ball_count (n : Z) (c : Config) : Config := {|
  SCREEN_WIDTH := SCREEN_WIDTH c;
  SCREEN_HEIGHT := SCREEN_HEIGHT c;
  FPS := FPS c;
  LEVELS := LEVELS c;
  BALL_COUNT := n;
  DROP_INTERVAL := DROP_INTERVAL c;
  BALL_SIZE := BALL_SIZE c;
  PEG_SIZE := PEG_SIZE c;
  BALL_MASS := BALL_MASS c;
  FRICTION := FRICTION c;
  BALL_ELASTICITY := BALL_ELASTICITY c;
  PEG_ELASTICITY := PEG_ELASTICITY c;
  SPAWN_RANGE := SPAWN_RANGE c;
  SAMPLE_RATE := SAMPLE_RATE c;
  VELOCITY_THRESHOLD := VELOCITY_THRESHOLD c;
  FLOOR_THICKNESS := FLOOR_THICKNESS c;
  VISUAL_OFFSET := VISUAL_OFFSET c;
  SUBSTEPS := SUBSTEPS c
|}.

(* ================================================================== *)
(** ** The physics space: shapes in the order of [space.add] *)
(* ================================================================== *)

Inductive Body :=
| Static
| Dynamic (mass : Z) (moment : Q).

Inductive Shape :=
| Circle (body : Body) (position : Q * Q) (radius : Z)
         (elasticity friction : Q) (collision_type : Z)
| Segment (a b : Q * Q) (radius : Z) (elasticity friction : Q).

Definition Space := list Shape.

(** A computation over the space that may raise: the state at the point of
    the exception is kept, so that one can tell what had been created. *)
Module SpaceM.

Inductive Outcome (A : Type) :=
| Returned (a : A) (sp : Space)
| Raised (e : Py.Exn) (sp : Space).
Arguments Returned {A} a sp.
Arguments Raised {A} e sp.

Definition M (A : Type) := Space -> Outcome A.

Definition ret {A} (a : A) : M A := fun sp => Returned a sp.

Definition bind {A B} (m : M A) (k : A -> M B) : M B :=
  fun sp => match m sp with
            | Returned a sp' => k a sp'
            | Raised e sp' => Raised e sp'
            end.

Definition lift {A} (r : Py.Exn + A) : M A :=
  fun sp => match r with
            | inl e => Raised e sp
            | inr a => Returned a sp
            end.

(** [space.add(shape)]. *)
Definition add (s : Shape) : M unit := fun sp => Returned tt (sp ++ [s]).

(** [for x in xs: body(x)]. *)
Fixpoint for_each {A} (xs : list A) (body : A -> M unit) : M unit :=
  match xs with
  | [] => ret tt
  | x :: xs' => bind (body x) (fun _ => for_each xs' body)
  end.

End SpaceM.
Import SpaceM.

Notation "x <- m ;; k" := (bind m (fun x => k))
  (at level 61, m at next level, right associativity).
Notation "m ;;; k" := (bind m (fun _ => k))
  (at level 61, right associativity).

(* ================================================================== *)
(** ** HELPERS FOR PEGS & BALLS, LAYOUT PEGS, BIN SEPARATORS *)
(* ================================================================== *)

Module Layout.
Local Open Scope Q_scope.

(** [pymunk.moment_for_circle(mass, 0, radius)]. *)
Definition moment_for_circle (mass inner outer : Z) : Q :=
  inject_Z mass * (inject_Z inner * inject_Z inner
                   + inject_Z outer * inject_Z outer) / 2.

Definition add_peg (c : Config) (x y : Q) : M unit :=
  add (Circle Static (x, y) (PEG_RADIUS c) (PEG_ELASTICITY c) (FRICTION c) 0).

Definition add_ball (c : Config) (x y : Q) : M unit :=
  add (Circle (Dynamic (BALL_MASS c)
                 (moment_for_circle (BALL_MASS c) 0 (BALL_RADIUS c)))
         (x, y) (BALL_RADIUS c) (BALL_ELASTICITY c) (FRICTION c) 1).

(** The values computed once before the peg loop. *)
Record Geometry := {
  offset_y : Q;
  spacing_x : Q;
  max_pegs_even : Z;
  occupied_width : Q;
  left_margin : Q
}.

Definition layout_constants (c : Config) : Py.Exn + Geometry :=
  match Py.truediv (inject_Z (SCREEN_HEIGHT c)) (inject_Z (LEVELS c + 4)) with
  | inl e => inl e
  | inr oy =>
    match Py.truediv (inject_Z (SCREEN_WIDTH c)) (inject_Z (LEVELS c + 1)) with
    | inl e => inl e
    | inr sx =>
      match Py.truediv (inject_Z (SCREEN_WIDTH c - 2 * PEG_RADIUS c)) sx with
      | inl e => inl e
      | inr q =>
        let m := (Py.int q + 1)%Z in
        let ow := inject_Z (m - 1) * sx in
        inr {| offset_y := oy;
               spacing_x := sx;
               max_pegs_even := m;
               occupied_width := ow;
               left_margin := (inject_Z (SCREEN_WIDTH c) - ow) / 2 |}
      end
    end
  end.

(** The [if row % 2 == 0: ... else: ...] choice of count and start,
    written twice in the script (peg rows and bottom row). *)
Definition pegs_in_row (g : Geometry) (row : Z) : Z :=
  if (row mod 2 =? 0)%Z then max_pegs_even g else (max_pegs_even g - 1)%Z.

Definition x_start (g : Geometry) (row : Z) : Q :=
  if (row mod 2 =? 0)%Z then left_margin g
  else left_margin g + spacing_x g / 2.

(** Body of the outer loop [for row in range(LEVELS)]. *)
Definition peg_row (c : Config) (g : Geometry) (row : Z) : M unit :=
  let y := offset_y g * inject_Z (row + 2) in
  for_each (Py.range (pegs_in_row g row))
    (fun i => add_peg c (x_start g row + inject_Z i * spacing_x g) y).

Definition layout_pegs (c : Config) (g : Geometry) : M unit :=
  for_each (Py.range (LEVELS c)) (peg_row c g).

(** DYNAMIC BIN SEPARATORS of galton.py. *)
Definition bottom_row (c : Config) : Z := (LEVELS c - 1)%Z.

Definition bottom_centers (c : Config) (g : Geometry) : list Q :=
  map (fun i => x_start g (bottom_row c) + inject_Z i * spacing_x g)
      (Py.range (pegs_in_row g (bottom_row c))).

Definition walls_x (c : Config) (g : Geometry) : list Q :=
  [0.0] ++ bottom_centers c g ++ [inject_Z (SCREEN_WIDTH c)].

Definition margin (c : Config) : Z := (PEG_RADIUS c / 2)%Z.

Definition y_bottom (c : Config) (g : Geometry) : Q :=
  offset_y g * inject_Z (bottom_row c + 2).

Definition wall_top_y (c : Config) (g : Geometry) : Q :=
  y_bottom c g - inject_Z (margin c).

(** Computed by galton.py but used only by the base-1 and base-3 variants. *)
Definition floor_line_y (c : Config) : Z :=
  (SCREEN_HEIGHT c + FLOOR_THICKNESS c - VISUAL_OFFSET c)%Z.

Definition separator_top_y (c : Config) (g : Geometry) : Q :=
  wall_top_y c g + inject_Z (VISUAL_OFFSET c).

Definition separator (c : Config) (g : Geometry) (x : Q) : Shape :=
  Segment (x, inject_Z (SCREEN_HEIGHT c)) (x, wall_top_y c g)
          (FLOOR_THICKNESS c) 0.0 10.0.

Definition floor (c : Config) : Shape :=
  Segment (0, inject_Z (SCREEN_HEIGHT c))
          (inject_Z (SCREEN_WIDTH c), inject_Z (SCREEN_HEIGHT c))
          (FLOOR_THICKNESS c) 0.0 10.0.

Definition bin_separators (c : Config) (g : Geometry) : M unit :=
  for_each (walls_x c g) (fun x => add (separator c g x)) ;;;
  add (floor c).

(** The whole start-up layout, from the empty space. *)
Definition build_board (c : Config) : M unit :=
  g <- lift (layout_constants c) ;;
  layout_pegs c g ;;;
  bin_separators c g.

(** The base-1 / base-3 variant of the separators and floor. *)
Module Base1.

Definition separator (c : Config) (g : Geometry) (x : Q) : Shape :=
  Segment (x, inject_Z (floor_line_y c)) (x, separator_top_y c g)
          (FLOOR_THICKNESS c) 0.0 (FRICTION c).

Definition floor (c : Config) : Shape :=
  Segment (0, inject_Z (floor_line_y c))
          (inject_Z (SCREEN_WIDTH c), inject_Z (floor_line_y c))
          (FLOOR_THICKNESS c) 0.0 (FRICTION c).

Definition bin_separators (c : Config) (g : Geometry) : M unit :=
  for_each (walls_x c g) (fun x => add (separator c g x)) ;;;
  add (floor c).

End Base1.

End Layout.

(* ================================================================== *)
(** ** Collision handling *)
(* ================================================================== *)

Module Classifier.
Local Open Scope Q_scope.

(** What the handler reads of a [pymunk] shape: its collision type and
    the velocity of its body. *)
Record ShapeRef := {
  collision_type : Z;
  velocity : Q * Q
}.

(** [arbiter.shapes]. *)
Record Arbiter := {
  shapes0 : ShapeRef;
  shapes1 : ShapeRef
}.

(** The two lists the handler writes: [collision_times] and the calls of
    [pygame_tick_sound.play()]. *)
Record Log := {
  collision_times : list Q;
  cues_played : nat
}.

Definition empty_log : Log := {| collision_times := []; cues_played := 0 |}.

(** [handle_collision(arbiter, space, data)]; [now] is the value of
    [pygame.time.get_ticks()] read inside the handler. *)
Definition handle_collision (c : Config) (start_time now : Z)
    (arbiter : Arbiter) (lg : Log) : bool * Log :=
  let ball_shape :=
    if (collision_type (shapes0 arbiter) =? 1)%Z
    then shapes0 arbiter else shapes1 arbiter in
  let velocity := snd (velocity ball_shape) in
  if Py.gt (Py.abs velocity) (inject_Z (VELOCITY_THRESHOLD c)) then
    let collision_time := inject_Z (now - start_time) / 1000 in
    (true, {| collision_times := collision_times lg ++ [collision_time];
              cues_played := S (cues_played lg) |})
  else (true, lg).

End Classifier.

(* ================================================================== *)
(** ** SPAWN POINT & MAIN LOOP *)
(* ================================================================== *)

Module Loop.
Import Classifier Layout.
Local Open Scope Q_scope.

(** A begin-contact callback issued by [space.step] for the handler
    registered on collision types (1, 0), with the clock read inside. *)
Record Contact := {
  arbiter : Arbiter;
  hit_ticks : Z
}.

(** Everything one iteration of [while running] reads from outside. *)
Record Tick := {
  tick_ms : Z;              (* clock.tick(FPS) *)
  jitter : Q;               (* random.uniform(-SPAWN_RANGE, SPAWN_RANGE) *)
  drop_ticks : Z;           (* get_ticks() after a drop *)
  quit : bool;              (* a QUIT event in pygame.event.get() *)
  contacts : list Contact;  (* callbacks during the SUBSTEPS steps *)
  frame_ticks : Z;          (* get_ticks() in the frame file name *)
  end_ticks : Z             (* get_ticks() in the timeout test *)
}.

Record Sim := {
  space : Space;
  balls_dropped : Z;
  spawn_timer : Q;
  start_time : Z;
  running : bool;
  last_ball_drop_time : option Z;
  frames : list Z;
  log : Log
}.

Definition spawn_x (c : Config) : Q := inject_Z (SCREEN_WIDTH c) / 2.
Definition spawn_y (c : Config) (g : Geometry) : Q :=
  offset_y g - inject_Z (BALL_RADIUS c).

Definition initial (sp : Space) (start : Z) : Sim := {|
  space := sp;
  balls_dropped := 0;
  spawn_timer := 0.0;
  start_time := start;
  running := true;
  last_ball_drop_time := None;
  frames := [];
  log := empty_log
|}.

(** The space after a computation that cannot raise. *)
Definition run_on {A} (m : M A) (sp : Space) : Space :=
  match m sp with
  | Returned _ sp' => sp'
  | Raised _ sp' => sp'
  end.

(** The test [balls_dropped < BALL_COUNT and spawn_timer >= DROP_INTERVAL]. *)
Definition due (c : Config) (dropped : Z) (timer : Q) : bool :=
  (dropped <? BALL_COUNT c)%Z && Py.ge timer (DROP_INTERVAL c).

(** [last_ball_drop_time and (get_ticks() - last_ball_drop_time > 10000)]:
    [None] and [0] are falsy. *)
Definition timed_out (last : option Z) (now : Z) : bool :=
  match last with
  | None => false
  | Some t => negb (t =? 0)%Z && (now - t >? 10000)%Z
  end.

Definition step_contacts (c : Config) (start : Z) (cs : list Contact)
    (lg : Log) : Log :=
  fold_left (fun l k => snd (handle_collision c start (hit_ticks k) (arbiter k) l))
            cs lg.

(** One iteration of the [while running] loop. *)
Definition loop_body (c : Config) (g : Geometry) (t : Tick) (s : Sim) : Sim :=
  let dt := inject_Z (tick_ms t) / 1000 in
  let timer := spawn_timer s + dt in
  let spawn := due c (balls_dropped s) timer in
  let sp :=
    if spawn then run_on (add_ball c (spawn_x c + jitter t) (spawn_y c g)) (space s)
    else space s in
  let dropped := if spawn then (balls_dropped s + 1)%Z else balls_dropped s in
  let timer' := if spawn then timer - DROP_INTERVAL c else timer in
  let last := if spawn then Some (drop_ticks t) else last_ball_drop_time s in
  let run1 := if quit t then false else running s in
  let lg := step_contacts c (start_time s) (contacts t) (log s) in
  let frames' := frames s ++ [frame_ticks t] in
  let run2 := if timed_out last (end_ticks t) then false else run1 in
  {| space := sp;
     balls_dropped := dropped;
     spawn_timer := timer';
     start_time := start_time s;
     running := run2;
     last_ball_drop_time := last;
     frames := frames';
     log := lg |}.

(** [while running: ...] over the ticks the environment supplies. *)
Fixpoint main_loop (c : Config) (g : Geometry) (ts : list Tick) (s : Sim) : Sim :=
  match ts with
  | [] => s
  | t :: ts' =>
    if running s then main_loop c g ts' (loop_body c g t s) else s
  end.

(** Observation of a run: for each ball drop, the time accumulated from the
    tick deltas when it happened and the value left in [spawn_timer]. *)
Fixpoint spawn_trace (c : Config) (g : Geometry) (ts : list Tick) (s : Sim)
    (elapsed : Q) : list (Q * Q) :=
  match ts with
  | [] => []
  | t :: ts' =>
    if running s then
      let s' := loop_body c g t s in
      let now := elapsed + inject_Z (tick_ms t) / 1000 in
      (if (balls_dropped s <? balls_dropped s')%Z
       then [(now, spawn_timer s')] else [])
      ++ spawn_trace c g ts' s' now
    else []
  end.

(** A tick of [ms] milliseconds in which nothing else happens. *)
Definition quiet_tick (ms now : Z) : Tick := {|
  tick_ms := ms;
  jitter := 0;
  drop_ticks := now;
  quit := false;
  contacts := [];
  frame_ticks := now;
  end_ticks := now
|}.

End Loop.

(* ================================================================== *)
(** ** Audio *)
(* ================================================================== *)

Module Audio.
Local Open Scope Qc_scope.

(** A [numpy] array of samples. *)
Definition Wave := list Qc.

Definition Qcmax (x y : Qc) : Qc := if Qle_bool x y then y else x.
Definition Qcmin (x y : Qc) : Qc := if Qle_bool x y then x else y.

(** [np.clip(x, lo, hi)] on one sample: [minimum(maximum(x, lo), hi)]. *)
Definition clip (lo hi x : Qc) : Qc := Qcmin (Qcmax x lo) hi.

(** [np.zeros(n)]: a negative dimension is refused. *)
Definition zeros (n : Z) : Py.Exn + Wave :=
  if (n <? 0)%Z then inl Py.ValueError else inr (repeat 0 (Z.to_nat n)).

(** Bound of a Python slice [a[i:...]] on a sequence of length [n]:
    a negative index counts from the end, and the result is clamped. *)
Definition slice_index (n : nat) (i : Z) : nat :=
  if (i <? 0)%Z then Z.to_nat (Z.max (i + Z.of_nat n) 0)
  else Z.to_nat (Z.min i (Z.of_nat n)).

(** Broadcasting of the right operand [w] of an in-place operation onto a
    target of [len] elements: equal lengths, or a single element repeated;
    anything else is a [ValueError]. *)
Definition broadcast (w : Wave) (len : nat) : option Wave :=
  if (length w =? len)%nat then Some w
  else match w with
       | [x] => Some (repeat x len)
       | _ => None
       end.

(** The slice [lo : lo + length bw] of [a] incremented by [bw]. *)
Definition add_window (lo : nat) (bw a : Wave) : Wave :=
  firstn lo a
  ++ map (fun p => fst p + snd p) (combine (firstn (length bw) (skipn lo a)) bw)
  ++ skipn (lo + length bw) a.

(** The slice [s:e] of an array of [n] elements and the operand [w]
    broadcast onto it: where the window starts and what is added. *)
Definition window (n : nat) (s e : Z) (w : Wave) : option (nat * Wave) :=
  let lo := slice_index n s in
  let hi := slice_index n e in
  match broadcast w (hi - lo) with
  | Some bw => Some (lo, bw)
  | None => None
  end.

(** [a[s:e] += w]. *)
Definition iadd_slice (a : Wave) (s e : Z) (w : Wave) : Py.Exn + Wave :=
  match window (length a) s e w with
  | Some (lo, bw) => inr (add_window lo bw a)
  | None => inl Py.ValueError
  end.

(** [for ct in collision_times: ...]. *)
Fixpoint overlay_all (sample_rate : Z) (tick_waveform : Wave)
    (collision_times : list Q) (audio_samples : Wave) : Py.Exn + Wave :=
  match collision_times with
  | [] => inr audio_samples
  | ct :: rest =>
    let idx_start := Py.int (ct * inject_Z sample_rate)%Q in
    let idx_end := (idx_start + Z.of_nat (length tick_waveform))%Z in
    match iadd_slice audio_samples idx_start idx_end tick_waveform with
    | inl e => inl e
    | inr a' => overlay_all sample_rate tick_waveform rest a'
    end
  end.

(** The audio block of galton.py, down to [np.clip]; [frames] is
    [len(frames)] and [tick_waveform] the envelope generated once. *)
Definition synthesize (c : Config) (tick_waveform : Wave) (frames : nat)
    (collision_times : list Q) : Py.Exn + Wave :=
  match Py.truediv (inject_Z (Z.of_nat frames)) (inject_Z (FPS c)) with
  | inl e => inl e
  | inr video_duration =>
    match zeros (Py.int (inject_Z (SAMPLE_RATE c) * video_duration)%Q
                 + Z.of_nat (length tick_waveform)) with
    | inl e => inl e
    | inr audio_samples =>
      match overlay_all (SAMPLE_RATE c) tick_waveform collision_times
                        audio_samples with
      | inl e => inl e
      | inr a => inr (map (clip (Q2Qc (-1.0)) (Q2Qc 1.0)) a)
      end
    end
  end.

(** *** The reference definition of the specification

    A zero-filled buffer of [sampleRate * runDuration + envelopeLength]
    samples; every event overlays the envelope additively from its start
    index; all samples are clipped to [-1, 1] afterwards.  The start index
    of an event is [start (timestamp * sampleRate)], where the specification
    takes [start] to be [round]. *)





End Audio.

(* ================================================================== *)
(** ** Vocabulary of the statements *)
(* ================================================================== *)

Module Obs.
Import Layout Classifier Loop Audio.
Local Open Scope Q_scope.

(** Coordinates of a shape: the centre of a circle, the first end point
    of a segment.  Screen coordinates: y grows downward (gravity is
    (0, 900)), so "above" means a smaller y. *)
Definition shape_x (s : Shape) : Q :=
  match s with
  | Circle _ p _ _ _ _ => fst p
  | Segment a _ _ _ _ => fst a
  end.

Definition shape_y (s : Shape) : Q :=
  match s with
  | Circle _ p _ _ _ _ => snd p
  | Segment a _ _ _ _ => snd a
  end.

(** Second end point of a segment. *)
Definition segment_end (s : Shape) : Q * Q :=
  match s with
  | Circle _ p _ _ _ _ => p
  | Segment _ b _ _ _ => b
  end.

(** The shapes one iteration of the row loop adds. *)
Definition row_shapes (c : Config) (g : Geometry) (row : Z) : list Shape :=
  run_on (peg_row c g row) [].

Definition peg_rows (c : Config) (g : Geometry) : list (list Shape) :=
  map (row_shapes c g) (Py.range (LEVELS c)).


(** The peg a row holds at position [i]. *)
Definition peg_at (c : Config) (g : Geometry) (x0 : Q) (row i : Z) : Shape :=
  Circle Static (x0 + inject_Z i * spacing_x g, offset_y g * inject_Z (row + 2))
         (PEG_RADIUS c) (PEG_ELASTICITY c) (FRICTION c) 0.


(** The configurations on which a division of the layout has a zero
    divisor. *)
Definition zero_divisor (c : Config) : Prop :=
  (LEVELS c = -4 \/ LEVELS c = -1 \/ SCREEN_WIDTH c = 0)%Z.


(** Number of ball shapes (collision type 1) in a space. *)
Definition is_ball (s : Shape) : bool :=
  match s with
  | Circle _ _ _ _ _ t => (t =? 1)%Z
  | Segment _ _ _ _ _ => false
  end.

Definition balls_in (sp : Space) : Z := Z.of_nat (length (filter is_ball sp)).

(** [b] is the ball of a ball / non-ball contact. *)
Definition ball_of (a : Arbiter) (b : ShapeRef) : Prop :=
  (b = shapes0 a /\ collision_type (shapes0 a) = 1%Z
                 /\ collision_type (shapes1 a) <> 1%Z)
  \/ (b = shapes1 a /\ collision_type (shapes1 a) = 1%Z
                    /\ collision_type (shapes0 a) <> 1%Z).

(** Any two consecutive drops of a run are at least DROP_INTERVAL apart. *)
Definition drops_spaced (c : Config) (g : Geometry) (ts : list Tick) : Prop :=
  let tr := spawn_trace c g ts (initial [] 0) 0 in
  forall k a b, nth_error tr k = Some a -> nth_error tr (S k) = Some b ->
    DROP_INTERVAL c <= fst b - fst a.

(** The loop invariant of the ball counter. *)
Definition counted (c : Config) (s : Sim) : Prop :=
  (0 <= balls_dropped s <= BALL_COUNT c)%Z
  /\ balls_in (space s) = balls_dropped s.

(** Seconds read off [dt = clock.tick(FPS) / 1000.0]. *)
Definition dt (t : Tick) : Q := inject_Z (tick_ms t) / 1000.

End Obs.

(* ================================================================== *)
(** ** Observations of a run of the main loop *)
(* ================================================================== *)

Module Trace.
Import Classifier Layout Loop Obs.
Local Open Scope Q_scope.

(** The ticks the loop consumes: those met while [running] holds. *)
Fixpoint executed (c : Config) (g : Geometry) (ts : list Tick) (s : Sim)
    : list Tick :=
  match ts with
  | [] => []
  | t :: ts' =>
    if running s then t :: executed c g ts' (loop_body c g t s) else []
  end.

(** Seconds accumulated from the deltas of a list of ticks. *)
Definition elapsed (ts : list Tick) : Q :=
  fold_right (fun t acc => dt t + acc) 0 ts.

(** The shape whose velocity the handler reads. *)
Definition ball_shape (a : Arbiter) : ShapeRef :=
  if (collision_type (shapes0 a) =? 1)%Z then shapes0 a else shapes1 a.

(** The test of the handler on a contact. *)
Definition audible (c : Config) (k : Contact) : bool :=
  Py.gt (Py.abs (snd (velocity (ball_shape (arbiter k)))))
        (inject_Z (VELOCITY_THRESHOLD c)).

(** The time the handler logs for a contact. *)
Definition stamp (start : Z) (k : Contact) : Q :=
  inject_Z (hit_ticks k - start) / 1000.

(** The shape [add_ball] adds for a jitter [j]. *)
Definition ball_at (c : Config) (g : Geometry) (j : Q) : Shape :=
  Circle (Dynamic (BALL_MASS c) (moment_for_circle (BALL_MASS c) 0 (BALL_RADIUS c)))
         (spawn_x c + j, spawn_y c g) (BALL_RADIUS c)
         (BALL_ELASTICITY c) (FRICTION c) 1.

(** The timeout test of the iteration reading tick [t], after its drop. *)
Definition timeout_at (c : Config) (t : Tick) (s : Sim) : bool :=
  timed_out (if due c (balls_dropped s) (spawn_timer s + dt t)
             then Some (drop_ticks t) else last_ball_drop_time s)
            (end_ticks t).

End Trace.

(* ================================================================== *)
(** ** The WAV samples *)
(* ================================================================== *)

Module Wav.
Import Audio.




End Wav.

(* ================================================================== *)
(** ** The main loop of base-1.py: stop when every ball is at rest *)
(* ================================================================== *)

Module Base1Loop.
Import Layout.
Local Open Scope Q_scope.

(** The constants of base-1.py; it has no sound and no jitter, and the
    constants of those parts are left as in galton.py. *)
Definition base1 : Config := {|
  SCREEN_WIDTH := 512;
  SCREEN_HEIGHT := 768;
  FPS := 60;
  LEVELS := 10;
  BALL_COUNT := 200;
  DROP_INTERVAL := 0.25;
  BALL_SIZE := 0.01;
  PEG_SIZE := 0.005;
  BALL_MASS := 1;
  FRICTION := 0.6;
  BALL_ELASTICITY := 0.0;
  PEG_ELASTICITY := 0.0;
  SPAWN_RANGE := 2;
  SAMPLE_RATE := 44100;
  VELOCITY_THRESHOLD := 50;
  FLOOR_THICKNESS := 5;
  VISUAL_OFFSET := 10;
  SUBSTEPS := 3
|}.

(** What one iteration reads from outside; [velocities] are the velocities
    of the dynamic bodies of the space after the sub-steps. *)
Record Tick := {
  tick_ms : Z;
  quit : bool;
  frame_ticks : Z;
  velocities : list (Q * Q)
}.

Record Sim := {
  space : Space;
  balls_dropped : Z;
  spawn_timer : Q;
  running : bool;
  frames : list Z
}.

Definition initial (sp : Space) : Sim := {|
  space := sp;
  balls_dropped := 0;
  spawn_timer := 0.0;
  running := true;
  frames := []
|}.

(** [a < b] on numbers. *)
Definition lt (a b : Q) : bool := negb (Qle_bool b a).

(** [all(abs(b.velocity.y) < 0.1 and abs(b.velocity.x) < 0.1 for b in ...)]. *)
Definition all_still (vs : list (Q * Q)) : bool :=
  forallb (fun v => lt (Py.abs (snd v)) 0.1 && lt (Py.abs (fst v)) 0.1) vs.

Definition loop_body (c : Config) (g : Geometry) (t : Tick) (s : Sim) : Sim :=
  let dt := inject_Z (tick_ms t) / 1000 in
  let timer := spawn_timer s + dt in
  let spawn := Loop.due c (balls_dropped s) timer in
  let sp :=
    if spawn then Loop.run_on (add_ball c (Loop.spawn_x c) (Loop.spawn_y c g)) (space s)
    else space s in
  let dropped := if spawn then (balls_dropped s + 1)%Z else balls_dropped s in
  let timer' := if spawn then timer - DROP_INTERVAL c else timer in
  let run1 := if quit t then false else running s in
  let frames' := frames s ++ [frame_ticks t] in
  let run2 :=
    if (dropped =? BALL_COUNT c)%Z && all_still (velocities t) then false
    else run1 in
  {| space := sp;
     balls_dropped := dropped;
     spawn_timer := timer';
     running := run2;
     frames := frames' |}.

Fixpoint main_loop (c : Config) (g : Geometry) (ts : list Tick) (s : Sim) : Sim :=
  match ts with
  | [] => s
  | t :: ts' =>
    if running s then main_loop c g ts' (loop_body c g t s) else s
  end.

End Base1Loop.

(* ================================================================== *)
(** ** Sample inputs *)
(* ================================================================== *)

Module Samples.
Import Classifier Layout Loop Audio.
Local Open Scope Q_scope.

(** The layout constants of galton.py, evaluated. *)
Definition galton_geometry : Geometry :=
  Eval vm_compute in
    match layout_constants galton with
    | inr g => g
    | inl _ => {| offset_y := 0; spacing_x := 0; max_pegs_even := 0;
                  occupied_width := 0; left_margin := 0 |}
    end.

(** A short envelope. *)
Definition short_tick : Wave := [Q2Qc 0.25; Q2Qc 0.5; Q2Qc 0.25].

(** A ball meeting a peg with vertical velocity [vy], at clock reading [now]. *)
Definition hit (vy : Q) (now : Z) : Contact := {|
  arbiter := {| shapes0 := {| collision_type := 1; velocity := (0, vy) |};
                shapes1 := {| collision_type := 0; velocity := (0, 0) |} |};
  hit_ticks := now
|}.

(** A tick of [ms] milliseconds, read at [now], with contacts [cs]. *)
Definition contact_tick (ms now : Z) (cs : list Contact) : Tick := {|
  tick_ms := ms;
  jitter := 1;
  drop_ticks := now;
  quit := false;
  contacts := cs;
  frame_ticks := now;
  end_ticks := now
|}.

End Samples.

(* ================================================================== *)
(** ** Facts about the Python primitives and the space monad *)
(* ================================================================== *)

Section Primitives.
Local Open Scope Q_scope.

Lemma int_nonneg_floor (x : Q) : 0 <= x -> Py.int x = Qfloor x.
Proof.
  destruct x as [n d]. unfold Qle, Py.int, Qfloor. simpl. intro H.
  apply Z.quot_div_nonneg; lia.
Qed.

Lemma int_inject_Z (z : Z) : Py.int (inject_Z z) = z.
Proof. unfold Py.int. simpl. apply Z.quot_1_r. Qed.

Lemma inject_Z_eq0 (z : Z) : Qeq_bool (inject_Z z) 0 = (z =? 0)%Z.
Proof. unfold Qeq_bool. simpl. now rewrite Z.mul_1_r. Qed.

Lemma truediv_ok (a b : Q) : ~ b == 0 -> Py.truediv a b = inr (a / b).
Proof.
  intro H. unfold Py.truediv. destruct (Qeq_bool b 0) eqn:E; [|reflexivity].
  apply Qeq_bool_eq in E. contradiction.
Qed.


Lemma inject_Z_nonzero (z : Z) : z <> 0%Z -> ~ inject_Z z == 0.
Proof. unfold Qeq. simpl. lia. Qed.

Lemma inject_Z_pos (z : Z) : (0 < z)%Z -> 0 < inject_Z z.
Proof. unfold Qlt. simpl. lia. Qed.

Lemma inject_Z_nonneg (z : Z) : (0 <= z)%Z -> 0 <= inject_Z z.
Proof. unfold Qle. simpl. lia. Qed.

Lemma range_length (n : Z) : length (Py.range n) = Z.to_nat n.
Proof. unfold Py.range. now rewrite length_map, length_seq. Qed.

Lemma range_nth_error (n : Z) (k : nat) (z : Z) :
  nth_error (Py.range n) k = Some z -> z = Z.of_nat k /\ (Z.of_nat k < n)%Z.
Proof.
  unfold Py.range. intro H.
  assert (Hk : (k < Z.to_nat n)%nat).
  { assert (Hs : nth_error (map Z.of_nat (seq 0 (Z.to_nat n))) k <> None)
      by (rewrite H; discriminate).
    apply nth_error_Some in Hs. now rewrite length_map, length_seq in Hs. }
  rewrite nth_error_map, nth_error_seq in H.
  destruct (Nat.ltb_spec k (Z.to_nat n)); [|lia].
  simpl in H. injection H as <-. split; [reflexivity | lia].
Qed.

Lemma range_snoc (n : Z) :
  (0 <= n)%Z -> Py.range (n + 1) = Py.range n ++ [n].
Proof.
  intro H. unfold Py.range.
  replace (Z.to_nat (n + 1)) with (Z.to_nat n + 1)%nat by lia.
  rewrite seq_app, map_app. simpl. now rewrite Z2Nat.id.
Qed.

End Primitives.

Section SpaceMonad.

Lemma for_each_add {A} (xs : list A) (f : A -> Shape) (sp : Space) :
  for_each xs (fun x => add (f x)) sp = Returned tt (sp ++ map f xs).
Proof.
  revert sp. induction xs as [|x xs IH]; intro sp; simpl.
  - unfold ret. now rewrite app_nil_r.
  - unfold bind, add at 1. rewrite IH. now rewrite <- app_assoc.
Qed.

Lemma for_each_blocks {A} (xs : list A) (body : A -> M unit)
    (out : A -> list Shape) :
  (forall x sp, body x sp = Returned tt (sp ++ out x)) ->
  forall sp, for_each xs body sp = Returned tt (sp ++ concat (map out xs)).
Proof.
  intro Hb. induction xs as [|x xs IH]; intro sp; simpl.
  - unfold ret. now rewrite app_nil_r.
  - unfold bind. rewrite Hb, IH. now rewrite <- app_assoc.
Qed.

End SpaceMonad.

(* ================================================================== *)
(** ** Layout *)
(* ================================================================== *)

Module LayoutFacts.
Import Layout Obs Loop.
Local Open Scope Q_scope.

(** The layout constants, when no divisor is zero. *)
Lemma layout_constants_ok (c : Config) :
  ~ zero_divisor c ->
  let sx := inject_Z (SCREEN_WIDTH c) / inject_Z (LEVELS c + 1) in
  let m := (Py.int (inject_Z (SCREEN_WIDTH c - 2 * PEG_RADIUS c) / sx) + 1)%Z in
  layout_constants c =
    inr {| offset_y := inject_Z (SCREEN_HEIGHT c) / inject_Z (LEVELS c + 4);
           spacing_x := sx;
           max_pegs_even := m;
           occupied_width := inject_Z (m - 1) * sx;
           left_margin := (inject_Z (SCREEN_WIDTH c) - inject_Z (m - 1) * sx) / 2 |}.
Proof.
  intros H sx m. unfold zero_divisor in H. unfold layout_constants.
  rewrite truediv_ok by (apply inject_Z_nonzero; lia).
  rewrite truediv_ok by (apply inject_Z_nonzero; lia).
  fold sx. rewrite truediv_ok; [reflexivity|].
  intro E. unfold sx in E.
  assert (HW : inject_Z (SCREEN_WIDTH c) == 0).
  { setoid_replace (inject_Z (SCREEN_WIDTH c))
      with (inject_Z (SCREEN_WIDTH c) / inject_Z (LEVELS c + 1)
            * inject_Z (LEVELS c + 1)).
    - rewrite E. ring.
    - field. apply inject_Z_nonzero. lia. }
  revert HW. apply inject_Z_nonzero. lia.
Qed.


Lemma peg_row_run (c : Config) (g : Geometry) (row : Z) (sp : Space) :
  peg_row c g row sp =
  Returned tt (sp ++ map (peg_at c g (x_start g row) row)
                         (Py.range (pegs_in_row g row))).
Proof. unfold peg_row, add_peg. now rewrite for_each_add. Qed.

Lemma row_shapes_eq (c : Config) (g : Geometry) (row : Z) :
  row_shapes c g row =
  map (peg_at c g (x_start g row) row) (Py.range (pegs_in_row g row)).
Proof. unfold row_shapes, run_on. now rewrite peg_row_run. Qed.

Lemma layout_pegs_run (c : Config) (g : Geometry) (sp : Space) :
  layout_pegs c g sp = Returned tt (sp ++ concat (peg_rows c g)).
Proof.
  unfold layout_pegs, peg_rows. apply for_each_blocks.
  intros row sp'. rewrite peg_row_run, row_shapes_eq. reflexivity.
Qed.

Lemma bin_separators_run (c : Config) (g : Geometry) (sp : Space) :
  bin_separators c g sp =
  Returned tt (sp ++ map (separator c g) (walls_x c g) ++ [floor c]).
Proof.
  unfold bin_separators, bind. rewrite for_each_add. unfold add.
  now rewrite <- app_assoc.
Qed.

Lemma build_board_run (c : Config) (g : Geometry) :
  layout_constants c = inr g ->
  build_board c [] =
  Returned tt (concat (peg_rows c g)
               ++ map (separator c g) (walls_x c g) ++ [floor c]).
Proof.
  intro H. unfold build_board, bind, lift. rewrite H.
  rewrite layout_pegs_run, bin_separators_run. reflexivity.
Qed.

End LayoutFacts.

Module LayoutClaims.
Import Layout Obs Loop LayoutFacts.
Local Open Scope Q_scope.

Lemma spacing_positive (c : Config) :
  (1 <= LEVELS c)%Z -> (0 < SCREEN_WIDTH c)%Z ->
  0 < inject_Z (SCREEN_WIDTH c) / inject_Z (LEVELS c + 1).
Proof.
  intros HL HW. apply Qlt_shift_div_l.
  - apply inject_Z_pos. lia.
  - rewrite Qmult_0_l. apply inject_Z_pos. lia.
Qed.

Lemma fit_quotient_nonneg (c : Config) :
  (1 <= LEVELS c)%Z -> (0 < SCREEN_WIDTH c)%Z ->
  (2 * PEG_RADIUS c <= SCREEN_WIDTH c)%Z ->
  0 <= inject_Z (SCREEN_WIDTH c - 2 * PEG_RADIUS c)
       / (inject_Z (SCREEN_WIDTH c) / inject_Z (LEVELS c + 1)).
Proof.
  intros HL HW Hr. apply Qle_shift_div_l.
  - now apply spacing_positive.
  - rewrite Qmult_0_l. apply inject_Z_nonneg. lia.
Qed.

Lemma no_zero_divisor (c : Config) :
  (1 <= LEVELS c)%Z -> SCREEN_WIDTH c <> 0%Z -> ~ zero_divisor c.
Proof. unfold zero_divisor. lia. Qed.

(** With pegs that fit in the canvas, a full row has at least one peg. *)
Lemma max_pegs_even_positive (c : Config) (g : Geometry) :
  (1 <= LEVELS c)%Z -> (0 < SCREEN_WIDTH c)%Z ->
  (2 * PEG_RADIUS c <= SCREEN_WIDTH c)%Z ->
  layout_constants c = inr g ->
  (1 <= max_pegs_even g)%Z
  /\ max_pegs_even g
     = (Qfloor (inject_Z (SCREEN_WIDTH c - 2 * PEG_RADIUS c) / spacing_x g) + 1)%Z
  /\ left_margin g
     = (inject_Z (SCREEN_WIDTH c) - inject_Z (max_pegs_even g - 1) * spacing_x g) / 2.
Proof.
  intros HL HW Hr Hg.
  rewrite layout_constants_ok in Hg by (apply no_zero_divisor; lia).
  pose proof (fit_quotient_nonneg c HL HW Hr) as Hq.
  set (q := inject_Z (SCREEN_WIDTH c - 2 * PEG_RADIUS c)
            / (inject_Z (SCREEN_WIDTH c) / inject_Z (LEVELS c + 1))) in *.
  injection Hg as <-. cbn [max_pegs_even spacing_x left_margin]. fold q.
  rewrite (int_nonneg_floor _ Hq).
  apply Qfloor_resp_le in Hq. change (Qfloor 0) with 0%Z in Hq.
  repeat split. lia.
Qed.











(** The base-1 and base-3 variants place the separators differently: from
    their own floor line, VISUAL_OFFSET - FLOOR_THICKNESS above the bottom
    edge, to VISUAL_OFFSET below the top used by galton.py. *)
Remark base1_separator_span (c : Config) (g : Geometry) (x : Q) :
  shape_y (Base1.separator c g x) = shape_y (Base1.floor c)
  /\ shape_y (Base1.separator c g x)
     = inject_Z (SCREEN_HEIGHT c + FLOOR_THICKNESS c - VISUAL_OFFSET c)
  /\ snd (segment_end (Base1.separator c g x))
     = snd (segment_end (separator c g x)) + inject_Z (VISUAL_OFFSET c).
Proof. repeat split. Qed.

End LayoutClaims.

(* ================================================================== *)
(** ** Collision classifier *)
(* ================================================================== *)

Module ClassifierClaims.
Import Classifier Obs.
Local Open Scope Q_scope.

Lemma gt_true (a b : Q) : Py.gt a b = true <-> b < a.
Proof.
  unfold Py.gt. rewrite negb_true_iff. split.
  - intro H. apply Qnot_le_lt. intro L. apply Qle_bool_iff in L. congruence.
  - intro H. destruct (Qle_bool a b) eqn:E; [|reflexivity].
    apply Qle_bool_iff in E. lra.
Qed.

Lemma gt_false (a b : Q) : Py.gt a b = false <-> a <= b.
Proof.
  unfold Py.gt. rewrite negb_false_iff. apply Qle_bool_iff.
Qed.

(** C1. On a ball / non-ball contact the handler appends one collision
    time, the seconds elapsed since start_time, exactly when the absolute
    vertical velocity of the ball exceeds VELOCITY_THRESHOLD, appends
    nothing otherwise, and returns True either way. *)
Theorem handle_collision_logs_fast_contacts (c : Config) (start now : Z)
    (a : Arbiter) (b : ShapeRef) (lg : Log) :
  ball_of a b ->
  let vy := snd (velocity b) in
  let r := handle_collision c start now a lg in
  fst r = true
  /\ (Qabs vy <= inject_Z (VELOCITY_THRESHOLD c) -> snd r = lg)
  /\ (inject_Z (VELOCITY_THRESHOLD c) < Qabs vy ->
      collision_times (snd r)
      = collision_times lg ++ [inject_Z (now - start) / 1000]
      /\ cues_played (snd r) = S (cues_played lg)).
Proof.
  intros Hb vy r.
  assert (Hsel : (if (collision_type (shapes0 a) =? 1)%Z
                  then shapes0 a else shapes1 a) = b).
  { destruct Hb as [(-> & H0 & _) | (-> & _ & H0)].
    - now rewrite H0.
    - apply Z.eqb_neq in H0. now rewrite H0. }
  unfold r, handle_collision. rewrite Hsel. fold vy. unfold Py.abs.
  destruct (Py.gt (Qabs vy) (inject_Z (VELOCITY_THRESHOLD c))) eqn:E;
    cbn [fst snd collision_times cues_played].
  - apply gt_true in E. split; [reflexivity|]. split.
    + intro H. lra.
    + intros _. split; reflexivity.
  - apply gt_false in E. split; [reflexivity|]. split.
    + reflexivity.
    + intro H. lra.
Qed.

(** C1 on a ball falling at 60 onto a peg, 1234 ms into the run. *)
Lemma handle_collision_fast_ball :
  let a := {| shapes0 := {| collision_type := 0; velocity := (0, 0) |};
              shapes1 := {| collision_type := 1; velocity := (3, -60) |} |} in
  ball_of a (shapes1 a)
  /\ handle_collision galton 1000 2234 a empty_log
     = (true, {| collision_times := [inject_Z 1234 / 1000]; cues_played := 1 |}).
Proof.
  intro a.
  assert (Hb : ball_of a (shapes1 a)).
  { right. repeat split. discriminate. }
  split; [exact Hb|].
  destruct (handle_collision_logs_fast_contacts galton 1000 2234 a _ empty_log Hb)
    as (Hret & _ & Hfast).
  destruct Hfast as [Hct Hcue]; [reflexivity|].
  destruct (handle_collision galton 1000 2234 a empty_log) as [ret [cts cues]].
  simpl in *. now subst.
Defined.

End ClassifierClaims.

(* ================================================================== *)
(** ** Spawner and main loop *)
(* ================================================================== *)

Module LoopFacts.
Import Classifier Layout Loop Obs.
Local Open Scope Q_scope.

Lemma ge_true (a b : Q) : Py.ge a b = true <-> b <= a.
Proof. unfold Py.ge. apply Qle_bool_iff. Qed.

Lemma due_spec (c : Config) (n : Z) (timer : Q) :
  due c n timer = true <-> (n < BALL_COUNT c)%Z /\ DROP_INTERVAL c <= timer.
Proof.
  unfold due. rewrite andb_true_iff, Z.ltb_lt, ge_true. reflexivity.
Qed.

Lemma dt_nonneg (t : Tick) : (0 <= tick_ms t)%Z -> 0 <= dt t.
Proof.
  intro H. unfold dt. apply Qle_shift_div_l; [reflexivity|].
  rewrite Qmult_0_l. now apply inject_Z_nonneg.
Qed.

(** What one iteration does to the spawner's variables. *)
Lemma loop_body_spawner (c : Config) (g : Geometry) (t : Tick) (s : Sim) :
  let s' := loop_body c g t s in
  if due c (balls_dropped s) (spawn_timer s + dt t) then
    balls_dropped s' = (balls_dropped s + 1)%Z
    /\ spawn_timer s' = spawn_timer s + dt t - DROP_INTERVAL c
    /\ last_ball_drop_time s' = Some (drop_ticks t)
    /\ exists ball, is_ball ball = true /\ space s' = space s ++ [ball]
  else
    balls_dropped s' = balls_dropped s
    /\ spawn_timer s' = spawn_timer s + dt t
    /\ last_ball_drop_time s' = last_ball_drop_time s
    /\ space s' = space s.
Proof.
  unfold loop_body, dt. cbn [balls_dropped spawn_timer last_ball_drop_time space].
  destruct (due c (balls_dropped s) (spawn_timer s + inject_Z (tick_ms t) / 1000)).
  - repeat split. eexists. split; [|reflexivity]. reflexivity.
  - repeat split.
Qed.

Lemma balls_in_snoc (sp : Space) (b : Shape) :
  is_ball b = true -> balls_in (sp ++ [b]) = (balls_in sp + 1)%Z.
Proof.
  intro H. unfold balls_in. rewrite filter_app, length_app. simpl.
  rewrite H. simpl. lia.
Qed.

Lemma loop_body_counted (c : Config) (g : Geometry) (t : Tick) (s : Sim) :
  counted c s -> counted c (loop_body c g t s).
Proof.
  intros [Hb Hs]. pose proof (loop_body_spawner c g t s) as H. cbv zeta in H.
  destruct (due c (balls_dropped s) (spawn_timer s + dt t)) eqn:E.
  - apply due_spec in E. destruct H as (Hd & _ & _ & ball & Hball & Hsp).
    split; [lia|]. rewrite Hsp, balls_in_snoc by assumption. lia.
  - destruct H as (Hd & _ & _ & Hsp). split; [lia|]. now rewrite Hsp, Hd.
Qed.

Lemma main_loop_counted (c : Config) (g : Geometry) (ts : list Tick) (s : Sim) :
  counted c s -> counted c (main_loop c g ts s).
Proof.
  revert s. induction ts as [|t ts IH]; intros s H; simpl; [exact H|].
  destruct (running s); [|exact H]. apply IH. now apply loop_body_counted.
Qed.

(** Every drop recorded in the trace, the [k]-th from state [s], happens
    when the accumulated time has paid for [k + 1] intervals. *)
Lemma spawn_trace_entry (c : Config) (g : Geometry) (ts : list Tick) :
  forall (s : Sim) (elapsed : Q) (k : nat) (t r : Q),
    nth_error (spawn_trace c g ts s elapsed) k = Some (t, r) ->
    0 <= r
    /\ t - elapsed + spawn_timer s
       == inject_Z (Z.of_nat (S k)) * DROP_INTERVAL c + r.
Proof.
  induction ts as [|tk ts IH]; intros s elapsed k t r Hk.
  - destruct k; discriminate.
  - cbn [spawn_trace] in Hk. destruct (running s); [|destruct k; discriminate].
    pose proof (loop_body_spawner c g tk s) as H. cbv zeta in H.
    cbv zeta in Hk. fold (dt tk) in Hk.
    destruct (due c (balls_dropped s) (spawn_timer s + dt tk)) eqn:E.
    + destruct H as (Hd & Ht & _). apply due_spec in E. destruct E as [_ E].
      rewrite Hd in Hk.
      replace (balls_dropped s <? balls_dropped s + 1)%Z with true in Hk
        by (symmetry; apply Z.ltb_lt; lia).
      destruct k as [|k]; cbn [app nth_error] in Hk.
      * assert (Et : t = elapsed + dt tk) by congruence.
        assert (Er : r = spawn_timer (loop_body c g tk s)) by congruence.
        rewrite Er, Et, Ht. change (inject_Z (Z.of_nat 1)) with 1.
        split; lra.
      * apply IH in Hk. destruct Hk as [Hr Hk]. split; [exact Hr|].
        rewrite Ht in Hk.
        replace (Z.of_nat (S (S k))) with (Z.of_nat (S k) + 1)%Z by lia.
        rewrite inject_Z_plus. change (inject_Z 1) with 1.
        set (n := inject_Z (Z.of_nat (S k))) in *.
        set (p := n * DROP_INTERVAL c) in *.
        assert (Hp : (n + 1) * DROP_INTERVAL c == p + DROP_INTERVAL c)
          by (unfold p; ring).
        rewrite Hp. lra.
    + destruct H as (Hd & Ht & _). rewrite Hd in Hk.
      rewrite Z.ltb_irrefl in Hk. cbn [app] in Hk.
      apply IH in Hk. destruct Hk as [Hr Hk]. split; [exact Hr|].
      rewrite Ht in Hk. lra.
Qed.

End LoopFacts.

Module LoopClaims.
Import Classifier Layout Loop Obs LoopFacts.
Local Open Scope Q_scope.

(** C5 (amended). In every run the [k]-th drop (counting from 1) happens
    when the time accumulated from the tick deltas is k * DROP_INTERVAL plus
    the non-negative remainder left in spawn_timer; each drop subtracts
    DROP_INTERVAL from the accumulator instead of resetting it, so the
    remainder carried out of a drop plus the time elapsed until the next
    drop is at least DROP_INTERVAL. *)
Theorem drops_follow_carried_cadence (c : Config) (g : Geometry)
    (sp : Space) (start : Z) (ts : list Tick) :
  let tr := spawn_trace c g ts (initial sp start) 0 in
  forall k t r, nth_error tr k = Some (t, r) ->
    0 <= r
    /\ t == inject_Z (Z.of_nat (S k)) * DROP_INTERVAL c + r
    /\ inject_Z (Z.of_nat (S k)) * DROP_INTERVAL c <= t
    /\ forall t' r', nth_error tr (S k) = Some (t', r') ->
         r' == r + (t' - t) - DROP_INTERVAL c
         /\ DROP_INTERVAL c <= r + (t' - t).
Proof.
  intros tr k t r Hk.
  destruct (spawn_trace_entry c g ts _ _ _ _ _ Hk) as [Hr Ht].
  cbn [initial spawn_timer] in Ht.
  set (p := inject_Z (Z.of_nat (S k)) * DROP_INTERVAL c) in *.
  assert (Ht' : t == p + r) by lra.
  split; [exact Hr|]. split; [exact Ht'|]. split; [lra|].
  intros t' r' Hk'.
  destruct (spawn_trace_entry c g ts _ _ _ _ _ Hk') as [Hr' Hs].
  cbn [initial spawn_timer] in Hs.
  replace (Z.of_nat (S (S k))) with (Z.of_nat (S k) + 1)%Z in Hs by lia.
  rewrite inject_Z_plus in Hs. change (inject_Z 1) with 1 in Hs.
  assert (Hp : (inject_Z (Z.of_nat (S k)) + 1) * DROP_INTERVAL c
               == p + DROP_INTERVAL c) by (unfold p; ring).
  rewrite Hp in Hs. split; lra.
Qed.

(** C5 (amended) on galton.py after a tick of 500 ms: the second drop
    comes 17 ms after the first, and the 250 ms carried over make up the
    interval. *)
Lemma cadence_after_long_tick :
  exists g,
    layout_constants galton = inr g
    /\ let tr := spawn_trace galton g [quiet_tick 500 500; quiet_tick 17 517]
                             (initial [] 0) 0 in
       exists t r t' r',
         nth_error tr 0 = Some (t, r) /\ nth_error tr 1 = Some (t', r')
         /\ 0 <= r
         /\ DROP_INTERVAL galton <= r + (t' - t)
         /\ t' - t < DROP_INTERVAL galton.
Proof.
  destruct (layout_constants galton) as [e|g] eqn:Hg;
    [vm_compute in Hg; discriminate|].
  exists g. split; [reflexivity|]. intro tr.
  vm_compute in Hg. injection Hg as <-.
  destruct (nth_error tr 0) as [[t r]|] eqn:E0; [|vm_compute in E0; discriminate].
  destruct (nth_error tr 1) as [[t' r']|] eqn:E1; [|vm_compute in E1; discriminate].
  exists t, r, t', r'. split; [reflexivity|]. split; [reflexivity|].
  destruct (drops_follow_carried_cadence galton _ [] 0
              [quiet_tick 500 500; quiet_tick 17 517] 0%nat t r E0)
    as (Hr & _ & _ & Hnext).
  destruct (Hnext t' r' E1) as [_ Hgap].
  split; [exact Hr|]. split; [exact Hgap|].
  vm_compute in E0, E1.
  assert (Et : t = fst (t, r)) by reflexivity.
  assert (Et' : t' = fst (t', r')) by reflexivity.
  rewrite Et, Et'.
  replace (t, r) with (0.500, 0.250000) by congruence.
  replace (t', r') with (0.517000, 0.01700000000) by congruence.
  reflexivity.
Defined.

(** C5 as worded fails: after a tick of 500 ms a drop is followed by
    another one 17 ms later, although DROP_INTERVAL is 250 ms. *)
Lemma drops_closer_than_interval :
  exists g,
    layout_constants galton = inr g
    /\ ~ drops_spaced galton g [quiet_tick 500 500; quiet_tick 17 517].
Proof.
  destruct (layout_constants galton) as [e|g] eqn:Hg;
    [vm_compute in Hg; discriminate|].
  exists g. split; [reflexivity|].
  vm_compute in Hg. injection Hg as <-.
  intro H. pose proof (H 0%nat _ _ eq_refl eq_refl) as Hgap.
  vm_compute in Hgap. apply Hgap. reflexivity.
Qed.

(** C6. With a non-negative BALL_COUNT and no ball in the space at the
    start, before and after every tick of every run balls_dropped is at
    most BALL_COUNT, and it is the number of ball shapes in the space. *)
Theorem balls_dropped_never_exceeds_ball_count (c : Config) (g : Geometry)
    (sp : Space) (start : Z) (ts : list Tick) (t : Tick) :
  (0 <= BALL_COUNT c)%Z -> balls_in sp = 0%Z ->
  let s := main_loop c g ts (initial sp start) in
  let s' := loop_body c g t s in
  ((balls_dropped s <= BALL_COUNT c)%Z /\ balls_in (space s) = balls_dropped s)
  /\ ((balls_dropped s' <= BALL_COUNT c)%Z
      /\ balls_in (space s') = balls_dropped s').
Proof.
  intros Hn Hsp s s'.
  assert (H0 : counted c (initial sp start)).
  { split; [simpl; lia | exact Hsp]. }
  assert (Hs : counted c s) by (apply main_loop_counted; exact H0).
  assert (Hs' : counted c s') by (apply loop_body_counted; exact Hs).
  destruct Hs as [[_ A] B]. destruct Hs' as [[_ A'] B']. repeat split; assumption.
Qed.

(** C6 on a run of galton.py with BALL_COUNT lowered to 1: three ticks of
    300 ms drop one ball only. *)
Lemma one_ball_run :
  let c := with_ball_count 1 galton in
  (0 <= BALL_COUNT c)%Z /\ balls_in [floor c] = 0%Z
  /\ exists g, layout_constants c = inr g
     /\ balls_dropped
          (main_loop c g [quiet_tick 300 300; quiet_tick 300 600; quiet_tick 300 900]
                     (initial [floor c] 0)) = 1%Z.
Proof.
  intro c.
  assert (H1 : (0 <= BALL_COUNT c)%Z) by (vm_compute; discriminate).
  assert (H2 : balls_in [floor c] = 0%Z) by reflexivity.
  split; [exact H1|]. split; [exact H2|].
  destruct (layout_constants c) as [e|g] eqn:Hg;
    [vm_compute in Hg; discriminate|].
  exists g. split; [reflexivity|].
  destruct (balls_dropped_never_exceeds_ball_count c g [floor c] 0
              [quiet_tick 300 300; quiet_tick 300 600; quiet_tick 300 900]
              (quiet_tick 300 1200) H1 H2) as [[Hle _] _].
  assert (Hge : (1 <= balls_dropped
                   (main_loop c g [quiet_tick 300 300; quiet_tick 300 600;
                                   quiet_tick 300 900] (initial [floor c] 0)))%Z).
  { vm_compute. discriminate. }
  change (BALL_COUNT c) with 1%Z in Hle. lia.
Defined.

(** C10. One iteration of the loop drops at most one ball.  When the
    accumulator holds two intervals or more and two balls are still to
    come, one ball is dropped now, the accumulator stays at DROP_INTERVAL
    or more, and the next tick, whatever its length, drops the next one. *)
Theorem at_most_one_ball_per_tick (c : Config) (g : Geometry) (t : Tick)
    (s : Sim) :
  0 <= DROP_INTERVAL c ->
  let s' := loop_body c g t s in
  ((balls_dropped s' = balls_dropped s /\ space s' = space s)
   \/ (balls_dropped s' = (balls_dropped s + 1)%Z
       /\ exists ball, is_ball ball = true /\ space s' = space s ++ [ball]))
  /\ (2 * DROP_INTERVAL c <= spawn_timer s + dt t ->
      (balls_dropped s + 2 <= BALL_COUNT c)%Z ->
      balls_dropped s' = (balls_dropped s + 1)%Z
      /\ DROP_INTERVAL c <= spawn_timer s'
      /\ forall t', (0 <= tick_ms t')%Z ->
           balls_dropped (loop_body c g t' s') = (balls_dropped s + 2)%Z).
Proof.
  intros HD s'.
  pose proof (loop_body_spawner c g t s) as H. cbv zeta in H. fold s' in H.
  split.
  - destruct (due c (balls_dropped s) (spawn_timer s + dt t)).
    + right. destruct H as (Hd & _ & _ & Hsp). split; assumption.
    + left. destruct H as (Hd & _ & _ & Hsp). split; assumption.
  - intros Hover Hleft.
    assert (E : due c (balls_dropped s) (spawn_timer s + dt t) = true).
    { apply due_spec. split; [lia | lra]. }
    rewrite E in H. destruct H as (Hd & Ht & _).
    split; [exact Hd|]. split; [rewrite Ht; lra|].
    intros t' Ht'. apply dt_nonneg in Ht'.
    pose proof (loop_body_spawner c g t' s') as H'. cbv zeta in H'.
    assert (E' : due c (balls_dropped s') (spawn_timer s' + dt t') = true).
    { apply due_spec. rewrite Hd, Ht. split; [lia | lra]. }
    rewrite E' in H'. destruct H' as (Hd' & _). rewrite Hd', Hd. lia.
Qed.

(** C10 on galton.py: a tick of 600 ms drops one ball and leaves 350 ms in
    the accumulator; the following tick of 16 ms drops the second. *)
Lemma overdue_balls_leave_one_per_tick :
  0 <= DROP_INTERVAL galton
  /\ exists g, layout_constants galton = inr g
     /\ let s1 := loop_body galton g (quiet_tick 600 600) (initial [] 0) in
        balls_dropped s1 = 1%Z
        /\ DROP_INTERVAL galton <= spawn_timer s1
        /\ balls_dropped (loop_body galton g (quiet_tick 16 616) s1) = 2%Z.
Proof.
  assert (H0 : 0 <= DROP_INTERVAL galton) by (vm_compute; discriminate).
  split; [exact H0|].
  destruct (layout_constants galton) as [e|g] eqn:Hg;
    [vm_compute in Hg; discriminate|].
  exists g. split; [reflexivity|]. intro s1.
  destruct (at_most_one_ball_per_tick galton g (quiet_tick 600 600)
              (initial [] 0) H0) as [_ H].
  destruct H as (Hd & Ht & Hnext).
  - vm_compute. discriminate.
  - vm_compute. discriminate.
  - split; [exact Hd|]. split; [exact Ht|].
    apply (Hnext (quiet_tick 16 616)). vm_compute. discriminate.
Defined.

(** C7 (what galton.py does with no ball to drop).  last_ball_drop_time
    stays None, so the timeout test never fires: without a QUIT event the
    loop is still running after any number of ticks, having saved one frame
    per tick. *)
Theorem no_ball_no_timeout (c : Config) (g : Geometry) (sp : Space)
    (start : Z) (ts : list Tick) :
  BALL_COUNT c = 0%Z ->
  (forall t, In t ts -> quit t = false) ->
  let s := main_loop c g ts (initial sp start) in
  running s = true
  /\ last_ball_drop_time s = None
  /\ balls_dropped s = 0%Z
  /\ length (frames s) = length ts.
Proof.
  intros Hn Hq.
  assert (G : forall (s0 : Sim),
             running s0 = true -> last_ball_drop_time s0 = None ->
             balls_dropped s0 = 0%Z ->
             let s := main_loop c g ts s0 in
             running s = true /\ last_ball_drop_time s = None
             /\ balls_dropped s = 0%Z
             /\ length (frames s) = (length (frames s0) + length ts)%nat).
  { induction ts as [|t ts IH]; intros s0 Hr Hl Hd.
    - simpl. repeat split; try assumption. lia.
    - cbn [main_loop]. rewrite Hr.
      assert (Hnd : due c (balls_dropped s0) (spawn_timer s0 + dt t) = false).
      { unfold due. rewrite Hd, Hn. reflexivity. }
      pose proof (loop_body_spawner c g t s0) as H. cbv zeta in H.
      rewrite Hnd in H. destruct H as (Hd' & _ & Hl' & _).
      assert (Hr' : running (loop_body c g t s0) = true).
      { unfold loop_body. cbn [running]. fold (dt t). rewrite Hnd, Hl.
        rewrite (Hq t (or_introl eq_refl)). simpl. exact Hr. }
      assert (Hf : length (frames (loop_body c g t s0))
                   = S (length (frames s0))).
      { unfold loop_body. cbn [frames]. rewrite length_app. simpl. lia. }
      destruct (IH (fun t' H' => Hq t' (or_intror H')) (loop_body c g t s0))
        as (A & B & C & D).
      + exact Hr'.
      + now rewrite Hl'.
      + now rewrite Hd'.
      + repeat split; try assumption. rewrite D, Hf. simpl. lia. }
  intro s. destruct (G (initial sp start)) as (A & B & C & D);
    try reflexivity.
  repeat split; assumption.
Qed.

(** C7 at BALL_COUNT = 0: after two quiet seconds the loop still runs. *)
Lemma zero_balls_keeps_running :
  let c := with_ball_count 0 galton in
  let ts := [quiet_tick 1000 1000; quiet_tick 1000 2000] in
  BALL_COUNT c = 0%Z
  /\ (forall t, In t ts -> quit t = false)
  /\ exists g, layout_constants c = inr g
     /\ running (main_loop c g ts (initial [] 0)) = true
     /\ length (frames (main_loop c g ts (initial [] 0))) = 2%nat.
Proof.
  intros c ts.
  assert (H1 : BALL_COUNT c = 0%Z) by reflexivity.
  assert (H2 : forall t, In t ts -> quit t = false).
  { intros t [<-|[<-|[]]]; reflexivity. }
  split; [exact H1|]. split; [exact H2|].
  destruct (layout_constants c) as [e|g] eqn:Hg;
    [vm_compute in Hg; discriminate|].
  exists g. split; [reflexivity|].
  destruct (no_ball_no_timeout c g [] 0 ts H1 H2) as (A & _ & _ & D).
  split; [exact A | exact D].
Defined.

End LoopClaims.

(* ================================================================== *)
(** ** Audio synthesis *)
(* ================================================================== *)

Module AudioFacts.
Import Audio.
Local Open Scope Qc_scope.

Lemma slice_index_le (n : nat) (i : Z) : (slice_index n i <= n)%nat.
Proof. unfold slice_index. destruct (i <? 0)%Z eqn:E; lia. Qed.

Lemma broadcast_length (w bw : Wave) (len : nat) :
  broadcast w len = Some bw -> length bw = len.
Proof.
  unfold broadcast. destruct (Nat.eqb_spec (length w) len) as [E|E].
  - intro H. injection H as <-. exact E.
  - destruct w as [|x [|y w']]; try discriminate.
    intro H. injection H as <-. apply repeat_length.
Qed.

Lemma window_fits (n : nat) (s e : Z) (w bw : Wave) (lo : nat) :
  window n s e w = Some (lo, bw) -> (lo + length bw <= n)%nat.
Proof.
  unfold window. destruct (broadcast w _) as [b|] eqn:B; [|discriminate].
  intro H. injection H as <- <-. apply broadcast_length in B. rewrite B.
  pose proof (slice_index_le n s). pose proof (slice_index_le n e). lia.
Qed.

Lemma length_add_window (lo : nat) (bw a : Wave) :
  (lo + length bw <= length a)%nat -> length (add_window lo bw a) = length a.
Proof.
  intro H. unfold add_window.
  rewrite !length_app, length_map, length_combine, !length_firstn, !length_skipn.
  lia.
Qed.

Lemma nth_zip_add (u v : Wave) (j : nat) :
  length u = length v ->
  nth j (map (fun p : Qc * Qc => fst p + snd p) (combine u v)) 0
  = nth j u 0 + nth j v 0.
Proof.
  revert v j. induction u as [|x u IH]; intros [|y v] j H; try discriminate.
  - destruct j; simpl; ring.
  - destruct j as [|j]; simpl; [reflexivity|]. apply IH. simpl in H. lia.
Qed.

(** Sample [i] after a window has been added. *)
Lemma nth_add_window (lo : nat) (bw a : Wave) (i : nat) :
  (lo + length bw <= length a)%nat ->
  nth i (add_window lo bw a) 0
  = nth i a 0 + (if (lo <=? i)%nat && (i <? lo + length bw)%nat
                 then nth (i - lo) bw 0 else 0).
Proof.
  intro H. unfold add_window.
  set (mid := map (fun p : Qc * Qc => fst p + snd p)
                  (combine (firstn (length bw) (skipn lo a)) bw)).
  assert (Hl1 : length (firstn lo a) = lo) by (apply firstn_length_le; lia).
  assert (Hfs : length (firstn (length bw) (skipn lo a)) = length bw)
    by (rewrite length_firstn, length_skipn; lia).
  assert (Hl2 : length mid = length bw)
    by (unfold mid; rewrite length_map, length_combine, Hfs; lia).
  destruct (Nat.leb_spec lo i) as [Hge|Hlt]; cbn [andb].
  - rewrite app_nth2 by lia. rewrite Hl1.
    destruct (Nat.ltb_spec i (lo + length bw)) as [Hin|Hout].
    + rewrite app_nth1 by lia. unfold mid.
      rewrite nth_zip_add by exact Hfs.
      rewrite nth_firstn.
      destruct (Nat.ltb_spec (i - lo) (length bw)); [|lia].
      rewrite nth_skipn. now replace (lo + (i - lo))%nat with i by lia.
    + rewrite app_nth2 by lia. rewrite Hl2, nth_skipn.
      replace (lo + length bw + (i - lo - length bw))%nat with i by lia. ring.
  - rewrite app_nth1 by lia. rewrite nth_firstn.
    destruct (Nat.ltb_spec i lo); [|lia]. ring.
Qed.

(** Two windows may be added in either order. *)
Lemma add_window_comm (lo1 lo2 : nat) (bw1 bw2 a : Wave) :
  (lo1 + length bw1 <= length a)%nat -> (lo2 + length bw2 <= length a)%nat ->
  add_window lo1 bw1 (add_window lo2 bw2 a)
  = add_window lo2 bw2 (add_window lo1 bw1 a).
Proof.
  intros H1 H2. apply (nth_ext _ _ 0 0).
  - rewrite !length_add_window; rewrite ?length_add_window; lia.
  - intros i _.
    rewrite !nth_add_window; rewrite ?length_add_window; try lia. ring.
Qed.

Lemma iadd_slice_inr (a a' : Wave) (s e : Z) (w : Wave) :
  iadd_slice a s e w = inr a' ->
  exists lo bw, window (length a) s e w = Some (lo, bw)
                /\ a' = add_window lo bw a /\ length a' = length a.
Proof.
  unfold iadd_slice. destruct (window (length a) s e w) as [[lo bw]|] eqn:W;
    [|discriminate].
  intro H. injection H as <-. exists lo, bw. repeat split.
  apply length_add_window. eapply window_fits; eauto.
Qed.

Lemma iadd_slice_inl (a : Wave) (s e : Z) (w : Wave) (x : Py.Exn) :
  iadd_slice a s e w = inl x ->
  x = Py.ValueError /\ window (length a) s e w = None.
Proof.
  unfold iadd_slice. destruct (window (length a) s e w) as [[lo bw]|];
    [discriminate|].
  intro H. injection H as <-. split; reflexivity.
Qed.

(** Two slice additions of the loop may be swapped, failures included. *)
Lemma iadd_slice_swap (a : Wave) (s1 e1 s2 e2 : Z) (w : Wave)
    (k : Wave -> Py.Exn + Wave) :
  match iadd_slice a s1 e1 w with
  | inl x => inl x
  | inr a1 => match iadd_slice a1 s2 e2 w with
              | inl x => inl x
              | inr a2 => k a2
              end
  end
  = match iadd_slice a s2 e2 w with
    | inl x => inl x
    | inr a1 => match iadd_slice a1 s1 e1 w with
                | inl x => inl x
                | inr a2 => k a2
                end
    end.
Proof.
  destruct (iadd_slice a s1 e1 w) as [x1|a1] eqn:E1;
    destruct (iadd_slice a s2 e2 w) as [x2|a2] eqn:E2.
  - apply iadd_slice_inl in E1, E2. destruct E1 as [-> _], E2 as [-> _].
    reflexivity.
  - apply iadd_slice_inl in E1. destruct E1 as [-> W1].
    apply iadd_slice_inr in E2. destruct E2 as (lo & bw & _ & _ & L).
    unfold iadd_slice. now rewrite L, W1.
  - apply iadd_slice_inl in E2. destruct E2 as [-> W2].
    apply iadd_slice_inr in E1. destruct E1 as (lo & bw & _ & _ & L).
    unfold iadd_slice. now rewrite L, W2.
  - apply iadd_slice_inr in E1, E2.
    destruct E1 as (lo1 & bw1 & W1 & -> & L1).
    destruct E2 as (lo2 & bw2 & W2 & -> & L2).
    unfold iadd_slice. rewrite L1, L2, W1, W2.
    rewrite add_window_comm; [reflexivity | |]; eapply window_fits; eauto.
Qed.

Lemma overlay_all_permutation (sr : Z) (w : Wave) (l l' : list Q) :
  Permutation l l' ->
  forall a, overlay_all sr w l a = overlay_all sr w l' a.
Proof.
  induction 1 as [|x l l' _ IH|x y l|l l' l'' _ IH1 _ IH2]; intro a.
  - reflexivity.
  - cbn [overlay_all]. destruct (iadd_slice a _ _ w); [reflexivity | apply IH].
  - cbn [overlay_all]. apply iadd_slice_swap.
  - now rewrite IH1.
Qed.

End AudioFacts.

Module AudioClaims.
Import Audio AudioFacts.
Local Open Scope Qc_scope.







(** C9. Synthesizing from any permutation of the collision log gives the
    same result as from the log itself: the same waveform, or the same
    exception when an event does not fit in the buffer. *)
Theorem synthesize_permutation_invariant (c : Config) (w : Wave)
    (frames : nat) (cts cts' : list Q) :
  Permutation cts cts' ->
  synthesize c w frames cts' = synthesize c w frames cts.
Proof.
  intro H. unfold synthesize.
  destruct (Py.truediv _ _) as [e|d]; [reflexivity|].
  destruct (zeros _) as [e|buf]; [reflexivity|].
  now rewrite (overlay_all_permutation (SAMPLE_RATE c) w cts cts' H buf).
Qed.



(** C9 on two events of one frame, in both orders. *)
Lemma synthesize_two_events_swapped :
  let env := [Q2Qc 0.25; Q2Qc 0.5; Q2Qc 0.25] in
  Permutation [0.001%Q; 0.006%Q] [0.006%Q; 0.001%Q]
  /\ synthesize galton env 1 [0.006%Q; 0.001%Q]
     = synthesize galton env 1 [0.001%Q; 0.006%Q].
Proof.
  intro env.
  assert (H : Permutation [0.001%Q; 0.006%Q] [0.006%Q; 0.001%Q])
    by apply perm_swap.
  split; [exact H|].
  apply (synthesize_permutation_invariant galton env 1 _ _ H).
Defined.

End AudioClaims.

(* ================================================================== *)
(** ** Further properties of the layout *)
(* ================================================================== *)

Module LayoutExtras.
Import Layout Obs Loop LayoutFacts LayoutClaims LoopFacts.
Local Open Scope Q_scope.

(** What the layout constants are on a canvas in which the pegs fit. *)
Lemma geometry_facts (c : Config) (g : Geometry) :
  (1 <= LEVELS c)%Z -> (0 < SCREEN_WIDTH c)%Z ->
  (2 * PEG_RADIUS c <= SCREEN_WIDTH c)%Z ->
  layout_constants c = inr g ->
  spacing_x g = inject_Z (SCREEN_WIDTH c) / inject_Z (LEVELS c + 1)
  /\ offset_y g = inject_Z (SCREEN_HEIGHT c) / inject_Z (LEVELS c + 4)
  /\ 0 < spacing_x g
  /\ (1 <= max_pegs_even g)%Z
  /\ inject_Z (max_pegs_even g - 1) * spacing_x g
     <= inject_Z (SCREEN_WIDTH c - 2 * PEG_RADIUS c)
  /\ inject_Z (SCREEN_WIDTH c - 2 * PEG_RADIUS c)
     < inject_Z (max_pegs_even g) * spacing_x g
  /\ left_margin g
     = (inject_Z (SCREEN_WIDTH c)
        - inject_Z (max_pegs_even g - 1) * spacing_x g) / 2.
Proof.
  intros HL HW Hr Hg.
  destruct (max_pegs_even_positive c g HL HW Hr Hg) as (Hm & Hfl & Hlm).
  pose proof (spacing_positive c HL HW) as Hsx.
  assert (Hs : spacing_x g = inject_Z (SCREEN_WIDTH c) / inject_Z (LEVELS c + 1)
               /\ offset_y g = inject_Z (SCREEN_HEIGHT c) / inject_Z (LEVELS c + 4)).
  { rewrite layout_constants_ok in Hg by (apply no_zero_divisor; lia).
    assert (E : forall a b : Geometry, inr (A := Py.Exn) a = inr b -> a = b)
      by (intros a b H; congruence).
    apply E in Hg. rewrite <- Hg. split; reflexivity. }
  destruct Hs as [Hs Ho]. rewrite <- Hs in Hsx.
  split; [exact Hs|]. split; [exact Ho|]. split; [exact Hsx|].
  split; [exact Hm|].
  set (a := inject_Z (SCREEN_WIDTH c - 2 * PEG_RADIUS c)) in *.
  set (sx := spacing_x g) in *.
  assert (Hq : a / sx * sx == a) by (field; lra).
  assert (Hm1 : (max_pegs_even g - 1)%Z = Qfloor (a / sx)) by lia.
  split; [|split; [|exact Hlm]].
  - rewrite Hm1. apply Qle_trans with (a / sx * sx).
    + apply Qmult_le_compat_r; [apply Qfloor_le | lra].
    + rewrite Hq. apply Qle_refl.
  - rewrite Hfl. apply Qle_lt_trans with (a / sx * sx).
    + rewrite Hq. apply Qle_refl.
    + apply Qmult_lt_compat_r; [exact Hsx | apply Qlt_floor].
Qed.

(** The x of the peg at position [i] of a row of [n] pegs lies between the
    x of its first and of its last peg. *)
Lemma peg_x_between (sx x0 : Q) (n i : Z) :
  0 < sx -> (0 <= i < n)%Z ->
  x0 <= x0 + inject_Z i * sx <= x0 + inject_Z (n - 1) * sx.
Proof.
  intros Hsx Hi.
  assert (H0 : 0 <= inject_Z i * sx).
  { apply Qmult_le_0_compat; [apply inject_Z_nonneg; lia | lra]. }
  assert (H1 : inject_Z i * sx <= inject_Z (n - 1) * sx).
  { apply Qmult_le_compat_r; [|lra]. rewrite <- Zle_Qle. lia. }
  split; lra.
Qed.

(** A peg of a row: its row index, its position in the row. *)
Lemma peg_of_row (c : Config) (g : Geometry) (k : nat) (row : list Shape)
    (p : Shape) :
  nth_error (peg_rows c g) k = Some row -> In p row ->
  (Z.of_nat k < LEVELS c)%Z
  /\ exists i, (0 <= i < pegs_in_row g (Z.of_nat k))%Z
               /\ p = peg_at c g (x_start g (Z.of_nat k)) (Z.of_nat k) i.
Proof.
  intros Hk Hp. unfold peg_rows in Hk. rewrite nth_error_map in Hk.
  destruct (nth_error (Py.range (LEVELS c)) k) as [z|] eqn:Hz; [|discriminate].
  assert (Hrow : row = row_shapes c g z) by (simpl in Hk; congruence).
  apply range_nth_error in Hz. destruct Hz as [-> Hlt]. split; [exact Hlt|].
  rewrite Hrow, row_shapes_eq in Hp. apply in_map_iff in Hp.
  destruct Hp as (i & Hi & Hin). exists i. split; [|now symmetry].
  unfold Py.range in Hin. apply in_map_iff in Hin.
  destruct Hin as (j & <- & Hj). apply in_seq in Hj. lia.
Qed.

(** Bounds of the x of the peg at position [i] of row [z]. *)
Lemma row_x_bounds (c : Config) (g : Geometry) (z i : Z) :
  (1 <= LEVELS c)%Z -> (0 < SCREEN_WIDTH c)%Z ->
  (2 * PEG_RADIUS c <= SCREEN_WIDTH c)%Z ->
  layout_constants c = inr g ->
  (0 <= i < pegs_in_row g z)%Z ->
  inject_Z (PEG_RADIUS c) <= x_start g z + inject_Z i * spacing_x g
  /\ x_start g z + inject_Z i * spacing_x g
     <= inject_Z (SCREEN_WIDTH c) - inject_Z (PEG_RADIUS c).
Proof.
  intros HL HW Hr Hg Hi.
  destruct (geometry_facts c g HL HW Hr Hg) as (_ & _ & Hsx & Hm & Hlo & _ & Hlm).
  pose proof (peg_x_between (spacing_x g) (x_start g z)
                (pegs_in_row g z) i Hsx Hi) as Hb.
  set (x := x_start g z + inject_Z i * spacing_x g) in *.
  assert (Hw : inject_Z (SCREEN_WIDTH c - 2 * PEG_RADIUS c)
               == inject_Z (SCREEN_WIDTH c) - 2 * inject_Z (PEG_RADIUS c)).
  { replace (SCREEN_WIDTH c - 2 * PEG_RADIUS c)%Z
      with (SCREEN_WIDTH c + - (2 * PEG_RADIUS c))%Z by lia.
    rewrite inject_Z_plus, inject_Z_opp, inject_Z_mult.
    change (inject_Z 2) with 2. unfold Qminus. reflexivity. }
  rewrite Hw in Hlo.
  set (d := inject_Z (max_pegs_even g - 1) * spacing_x g) in *.
  assert (H2 : 2 * left_margin g == inject_Z (SCREEN_WIDTH c) - d)
    by (rewrite Hlm; field).
  unfold pegs_in_row, x_start in Hb, Hi.
  destruct (z mod 2 =? 0)%Z.
  - fold d in Hb. lra.
  - replace (max_pegs_even g - 1 - 1)%Z with (max_pegs_even g - 1 + -1)%Z in Hb by lia.
    rewrite inject_Z_plus in Hb. change (inject_Z (-1)) with (-1 # 1) in Hb.
    assert (Hd : (inject_Z (max_pegs_even g - 1) + (-1 # 1)) * spacing_x g
                 == d - spacing_x g) by (unfold d; ring).
    rewrite Hd in Hb.
    assert (Hh : spacing_x g / 2 == spacing_x g * (1 # 2)) by field.
    rewrite Hh in Hb. lra.
Qed.

(** X1. Every peg lies, with its whole radius, inside the width of the
    canvas: PEG_RADIUS <= x <= SCREEN_WIDTH - PEG_RADIUS. *)
Theorem pegs_inside_canvas_width (c : Config) (g : Geometry) (k : nat)
    (row : list Shape) (p : Shape) :
  (1 <= LEVELS c)%Z -> (0 < SCREEN_WIDTH c)%Z ->
  (2 * PEG_RADIUS c <= SCREEN_WIDTH c)%Z ->
  layout_constants c = inr g ->
  nth_error (peg_rows c g) k = Some row -> In p row ->
  inject_Z (PEG_RADIUS c) <= shape_x p
  /\ shape_x p <= inject_Z (SCREEN_WIDTH c) - inject_Z (PEG_RADIUS c).
Proof.
  intros HL HW Hr Hg Hk Hp.
  destruct (peg_of_row c g k row p Hk Hp) as (_ & i & Hi & ->).
  apply (row_x_bounds c g (Z.of_nat k) i HL HW Hr Hg Hi).
Qed.


Lemma inr_inj {A B : Type} (x y : B) : inr (A := A) x = inr y -> x = y.
Proof. congruence. Qed.

Lemma positive_nonzero (x : Q) : 0 < x -> ~ x == 0.
Proof. intros H E. rewrite E in H. now apply Qlt_irrefl in H. Qed.

Lemma offset_y_eq (c : Config) (g : Geometry) :
  (LEVELS c + 4 <> 0)%Z -> layout_constants c = inr g ->
  offset_y g = inject_Z (SCREEN_HEIGHT c) / inject_Z (LEVELS c + 4).
Proof.
  intros H4. unfold layout_constants.
  rewrite truediv_ok by (apply inject_Z_nonzero; exact H4).
  destruct (Py.truediv (inject_Z (SCREEN_WIDTH c)) _) as [e|sx]; [discriminate|].
  destruct (Py.truediv _ sx) as [e|q]; [discriminate|].
  intro E. apply inr_inj in E. rewrite <- E. reflexivity.
Qed.

Lemma peg_of_row_index (c : Config) (g : Geometry) (k i : nat)
    (row : list Shape) (p : Shape) :
  nth_error (peg_rows c g) k = Some row -> nth_error row i = Some p ->
  p = peg_at c g (x_start g (Z.of_nat k)) (Z.of_nat k) (Z.of_nat i).
Proof.
  intros Hk Hi. unfold peg_rows in Hk. rewrite nth_error_map in Hk.
  destruct (nth_error (Py.range (LEVELS c)) k) as [z|] eqn:Hz; [|discriminate].
  assert (Hrow : row = row_shapes c g z) by (simpl in Hk; congruence).
  apply range_nth_error in Hz. destruct Hz as [-> _].
  rewrite Hrow, row_shapes_eq, nth_error_map in Hi.
  destruct (nth_error (Py.range _) i) as [j|] eqn:Hj; [|discriminate].
  apply range_nth_error in Hj. destruct Hj as [-> _].
  simpl in Hi. congruence.
Qed.

(** X3. No two pegs of the board share a position: pegs at different places
    of the layout (row, index in the row) differ in x or in y. *)
Theorem pegs_never_coincide (c : Config) (g : Geometry) (k k' i i' : nat)
    (row row' : list Shape) (p p' : Shape) :
  (1 <= LEVELS c)%Z -> (0 < SCREEN_WIDTH c)%Z -> (0 < SCREEN_HEIGHT c)%Z ->
  layout_constants c = inr g ->
  nth_error (peg_rows c g) k = Some row -> nth_error row i = Some p ->
  nth_error (peg_rows c g) k' = Some row' -> nth_error row' i' = Some p' ->
  shape_x p == shape_x p' -> shape_y p == shape_y p' ->
  k = k' /\ i = i'.
Proof.
  intros HL HW HH Hg Hk Hi Hk' Hi' Hx Hy.
  rewrite (peg_of_row_index c g k i row p Hk Hi) in Hx, Hy.
  rewrite (peg_of_row_index c g k' i' row' p' Hk' Hi') in Hx, Hy.
  unfold peg_at, shape_x, shape_y in Hx, Hy. cbn [fst snd] in Hx, Hy.
  assert (Hoy : 0 < offset_y g).
  { rewrite (offset_y_eq c g) by (lia || assumption).
    apply Qlt_shift_div_l; [apply inject_Z_pos; lia|].
    rewrite Qmult_0_l. now apply inject_Z_pos. }
  assert (Hsx : 0 < spacing_x g).
  { assert (Hs : spacing_x g
                 = inject_Z (SCREEN_WIDTH c) / inject_Z (LEVELS c + 1)).
    { rewrite layout_constants_ok in Hg by (apply no_zero_divisor; lia).
      apply inr_inj in Hg. rewrite <- Hg. reflexivity. }
    rewrite Hs. now apply spacing_positive. }
  assert (Ek : k = k').
  { apply (proj1 (Qmult_inj_l _ _ _ (positive_nonzero _ Hoy))) in Hy.
    apply (proj1 (inject_Z_injective _ _)) in Hy. lia. }
  subst k'. split; [reflexivity|].
  assert (Hm : inject_Z (Z.of_nat i) * spacing_x g
               == inject_Z (Z.of_nat i') * spacing_x g).
  { set (u := inject_Z (Z.of_nat i) * spacing_x g) in *.
    set (v := inject_Z (Z.of_nat i') * spacing_x g) in *. lra. }
  apply (proj1 (Qmult_inj_r _ _ _ (positive_nonzero _ Hsx))) in Hm.
  apply (proj1 (inject_Z_injective _ _)) in Hm. lia.
Qed.

Lemma row_length (c : Config) (g : Geometry) (z : Z) :
  length (row_shapes c g z) = Z.to_nat (pegs_in_row g z).
Proof. now rewrite row_shapes_eq, length_map, range_length. Qed.

Lemma peg_count_upto (c : Config) (g : Geometry) (n : nat) :
  (1 <= max_pegs_even g)%Z ->
  Z.of_nat (length (concat (map (row_shapes c g) (Py.range (Z.of_nat n)))))
  = (Z.of_nat n * max_pegs_even g - Z.of_nat n / 2)%Z.
Proof.
  intro Hm. induction n as [|n IH].
  - reflexivity.
  - replace (Z.of_nat (S n)) with (Z.of_nat n + 1)%Z by lia.
    rewrite range_snoc by lia.
    rewrite map_app, concat_app, length_app, Nat2Z.inj_add, IH.
    cbn [map concat]. rewrite app_nil_r, row_length. unfold pegs_in_row.
    destruct (Z.eqb_spec (Z.of_nat n mod 2) 0) as [E|E];
      rewrite Z2Nat.id by lia; Z.to_euclidean_division_equations; lia.
Qed.

(** X4. The board holds LEVELS * max_pegs_even - LEVELS // 2 pegs, the rows
    being alternately full and one peg short. *)
Theorem total_peg_count (c : Config) (g : Geometry) :
  (1 <= LEVELS c)%Z -> (0 < SCREEN_WIDTH c)%Z ->
  (2 * PEG_RADIUS c <= SCREEN_WIDTH c)%Z ->
  layout_constants c = inr g ->
  exists pegs,
    layout_pegs c g [] = Returned tt pegs
    /\ Z.of_nat (length pegs)
       = (LEVELS c * max_pegs_even g - LEVELS c / 2)%Z.
Proof.
  intros HL HW Hr Hg.
  destruct (max_pegs_even_positive c g HL HW Hr Hg) as (Hm & _ & _).
  exists (concat (peg_rows c g)). split; [apply (layout_pegs_run c g [])|].
  unfold peg_rows.
  replace (LEVELS c) with (Z.of_nat (Z.to_nat (LEVELS c))) at 1 by lia.
  rewrite (peg_count_upto c g _ Hm). rewrite Z2Nat.id by lia. reflexivity.
Qed.

(** X5. Row k lies at y = offset_y * (k + 2): every peg is below the top
    edge and at least three row distances above the bottom edge, and the
    bottom row is exactly three row distances above it. *)
Theorem rows_leave_room_for_bins (c : Config) (g : Geometry) (k : nat)
    (row : list Shape) (p : Shape) :
  (1 <= LEVELS c)%Z -> (0 < SCREEN_HEIGHT c)%Z ->
  layout_constants c = inr g ->
  nth_error (peg_rows c g) k = Some row -> In p row ->
  shape_y p = offset_y g * inject_Z (Z.of_nat k + 2)
  /\ 0 < shape_y p
  /\ shape_y p + 3 * offset_y g <= inject_Z (SCREEN_HEIGHT c)
  /\ y_bottom c g + 3 * offset_y g == inject_Z (SCREEN_HEIGHT c).
Proof.
  intros HL HH Hg Hk Hp.
  destruct (peg_of_row c g k row p Hk Hp) as (Hlt & i & _ & ->).
  unfold peg_at, shape_y. cbn [snd].
  assert (Ho : offset_y g
               = inject_Z (SCREEN_HEIGHT c) / inject_Z (LEVELS c + 4))
    by (apply offset_y_eq; [lia | exact Hg]).
  assert (Hoy : 0 < offset_y g).
  { rewrite Ho. apply Qlt_shift_div_l; [apply inject_Z_pos; lia|].
    rewrite Qmult_0_l. now apply inject_Z_pos. }
  assert (Hfull : offset_y g * inject_Z (LEVELS c + 4)
                  == inject_Z (SCREEN_HEIGHT c)).
  { rewrite Ho. field. apply inject_Z_nonzero. lia. }
  assert (Hsum : forall z : Z,
             offset_y g * inject_Z (z + 2) + 3 * offset_y g
             == offset_y g * inject_Z (z + 5)).
  { intro z. rewrite !inject_Z_plus.
    change (inject_Z 2) with 2. change (inject_Z 5) with 5. ring. }
  split; [reflexivity|]. split; [|split].
  - apply Qmult_lt_0_compat; [exact Hoy | apply inject_Z_pos; lia].
  - rewrite Hsum, <- Hfull.
    rewrite !(Qmult_comm (offset_y g)).
    apply Qmult_le_compat_r; [|lra]. rewrite <- Zle_Qle. lia.
  - unfold y_bottom, bottom_row. rewrite Hsum, <- Hfull.
    now replace (LEVELS c - 1 + 5)%Z with (LEVELS c + 4)%Z by lia.
Qed.

Lemma sorted_snoc (l : list Q) (w : Q) :
  StronglySorted Qlt l -> Forall (fun x => x < w) l ->
  StronglySorted Qlt (l ++ [w]).
Proof.
  induction 1 as [|a l Hs IH Ha]; intro Hw; simpl.
  - constructor; constructor.
  - inversion Hw as [|? ? Haw Hlw]; subst. constructor.
    + now apply IH.
    + apply Forall_app. split; [exact Ha | constructor; [exact Haw | constructor]].
Qed.

(** Equally spaced abscissas, a positive distance apart, are increasing. *)
Lemma spaced_sorted (x0 sx : Q) (n a : nat) :
  0 < sx ->
  StronglySorted Qlt
    (map (fun i : Z => x0 + inject_Z i * sx) (map Z.of_nat (seq a n))).
Proof.
  intro Hsx. revert a. induction n as [|n IH]; intro a; simpl.
  - constructor.
  - constructor; [apply IH|].
    apply Forall_forall. intros x Hx.
    apply in_map_iff in Hx. destruct Hx as (i & <- & Hi).
    apply in_map_iff in Hi. destruct Hi as (j & <- & Hj).
    apply in_seq in Hj.
    assert (Hlt : inject_Z (Z.of_nat a) * sx < inject_Z (Z.of_nat j) * sx).
    { apply Qmult_lt_compat_r; [exact Hsx|]. rewrite <- Zlt_Qlt. lia. }
    lra.
Qed.

(** X6. With pegs of positive radius the separators stand at strictly
    increasing x, from 0 to SCREEN_WIDTH: the bins between neighbouring
    separators all have a positive width. *)
Theorem separators_strictly_ordered (c : Config) (g : Geometry) :
  (1 <= LEVELS c)%Z -> (0 < SCREEN_WIDTH c)%Z ->
  (0 < PEG_RADIUS c)%Z -> (2 * PEG_RADIUS c <= SCREEN_WIDTH c)%Z ->
  layout_constants c = inr g ->
  StronglySorted Qlt (walls_x c g).
Proof.
  intros HL HW Hr0 Hr Hg.
  destruct (geometry_facts c g HL HW Hr Hg) as (_ & _ & Hsx & _).
  assert (Hrq : 0 < inject_Z (PEG_RADIUS c)) by now apply inject_Z_pos.
  assert (Hin : forall x, In x (bottom_centers c g) ->
                  0 < x /\ x < inject_Z (SCREEN_WIDTH c)).
  { intros x Hx. unfold bottom_centers in Hx. apply in_map_iff in Hx.
    destruct Hx as (i & <- & Hi). unfold Py.range in Hi.
    apply in_map_iff in Hi. destruct Hi as (j & <- & Hj). apply in_seq in Hj.
    assert (Hb : (0 <= Z.of_nat j < pegs_in_row g (bottom_row c))%Z) by lia.
    pose proof (row_x_bounds c g (bottom_row c) (Z.of_nat j) HL HW Hr Hg Hb).
    lra. }
  unfold walls_x. cbn [app]. constructor.
  - apply sorted_snoc.
    + unfold bottom_centers, Py.range. now apply spaced_sorted.
    + apply Forall_forall. intros x Hx. now apply Hin.
  - apply Forall_app. split.
    + apply Forall_forall. intros x Hx. change (0.0 < x). 
      destruct (Hin x Hx) as [H0 _]. 
      assert (E : 0.0 == 0) by reflexivity. rewrite E. exact H0.
    + constructor; [|constructor]. change (0.0 < inject_Z (SCREEN_WIDTH c)).
      assert (E : 0.0 == 0) by reflexivity. rewrite E. now apply inject_Z_pos.
Qed.

Lemma no_ball_among (sp : Space) :
  Forall (fun s => is_ball s = false) sp -> balls_in sp = 0%Z.
Proof.
  intro H. unfold balls_in. induction H as [|s sp Hs _ IH]; [reflexivity|].
  simpl. rewrite Hs. exact IH.
Qed.

(** X7. The board built at start-up holds no ball, so in every run from it
    balls_dropped counts the ball shapes of the space and stays within
    [0, BALL_COUNT]. *)
Theorem board_starts_without_balls (c : Config) (g : Geometry) (sp : Space)
    (start : Z) (ts : list Tick) :
  (0 <= BALL_COUNT c)%Z ->
  layout_constants c = inr g ->
  build_board c [] = Returned tt sp ->
  balls_in sp = 0%Z
  /\ (0 <= balls_dropped (main_loop c g ts (initial sp start)) <= BALL_COUNT c)%Z
  /\ balls_in (space (main_loop c g ts (initial sp start)))
     = balls_dropped (main_loop c g ts (initial sp start)).
Proof.
  intros Hn Hg Hb.
  assert (H0 : balls_in sp = 0%Z).
  { rewrite (build_board_run c g Hg) in Hb.
    assert (E : sp = concat (peg_rows c g)
                     ++ map (separator c g) (walls_x c g) ++ [floor c])
      by congruence.
    rewrite E. apply no_ball_among. rewrite !Forall_app. repeat split.
    - apply Forall_concat. apply Forall_forall. intros row Hrow.
      unfold peg_rows in Hrow. apply in_map_iff in Hrow.
      destruct Hrow as (z & <- & _). rewrite row_shapes_eq.
      apply Forall_forall. intros p Hp. apply in_map_iff in Hp.
      destruct Hp as (i & <- & _). reflexivity.
    - apply Forall_forall. intros p Hp. apply in_map_iff in Hp.
      destruct Hp as (x & <- & _). reflexivity.
    - constructor; [reflexivity | constructor]. }
  split; [exact H0|].
  assert (Hc : counted c (main_loop c g ts (initial sp start))).
  { apply main_loop_counted. split; [simpl; lia | exact H0]. }
  exact Hc.
Qed.

End LayoutExtras.

(* ================================================================== *)
(** ** Further properties of the main loop *)
(* ================================================================== *)

Module LoopExtras.
Import Classifier Layout Loop Obs Trace LoopFacts.
Local Open Scope Q_scope.

Lemma loop_body_frames (c : Config) (g : Geometry) (t : Tick) (s : Sim) :
  frames (loop_body c g t s) = frames s ++ [frame_ticks t].
Proof. reflexivity. Qed.

Lemma loop_body_start_time (c : Config) (g : Geometry) (t : Tick) (s : Sim) :
  start_time (loop_body c g t s) = start_time s.
Proof. reflexivity. Qed.

Lemma loop_body_log (c : Config) (g : Geometry) (t : Tick) (s : Sim) :
  log (loop_body c g t s) = step_contacts c (start_time s) (contacts t) (log s).
Proof. reflexivity. Qed.

(** X8. The loop saves exactly one frame for every tick it executes, in
    order, the tick of a QUIT event or of the timeout included; the ticks it
    executes are an initial part of the ticks offered. *)
Theorem one_frame_per_executed_tick (c : Config) (g : Geometry)
    (ts : list Tick) (s : Sim) :
  frames (main_loop c g ts s)
  = frames s ++ map frame_ticks (executed c g ts s)
  /\ exists rest, ts = executed c g ts s ++ rest.
Proof.
  revert s. induction ts as [|t ts IH]; intro s; cbn [main_loop executed].
  - split; [now rewrite app_nil_r | now exists []].
  - destruct (running s).
    + destruct (IH (loop_body c g t s)) as [Hf [rest Hr]]. split.
      * rewrite Hf, loop_body_frames, <- app_assoc. reflexivity.
      * exists rest. cbn [app]. now rewrite <- Hr.
    + split; [now rewrite app_nil_r | now exists (t :: ts)].
Qed.

(** The contacts of one tick: the fast ones are logged, in order. *)
Lemma step_contacts_spec (c : Config) (start : Z) (cs : list Contact) :
  forall lg,
    collision_times (step_contacts c start cs lg)
    = collision_times lg ++ map (stamp start) (filter (audible c) cs)
    /\ cues_played (step_contacts c start cs lg)
       = (cues_played lg + length (filter (audible c) cs))%nat.
Proof.
  unfold step_contacts.
  induction cs as [|k cs IH]; intro lg; cbn [fold_left filter].
  - cbn [map length]. rewrite app_nil_r. split; [reflexivity | lia].
  - destruct (IH (snd (handle_collision c start (hit_ticks k) (arbiter k) lg)))
      as [Ht Hc].
    rewrite Ht, Hc. unfold handle_collision, audible, ball_shape.
    destruct (Py.gt _ _); cbn [snd collision_times cues_played map length].
    + rewrite <- app_assoc. split; [reflexivity | lia].
    + split; reflexivity.
Qed.

(** X9. The collision log is append-only: after any run it is the log
    before, followed by the times of the fast contacts of the executed
    ticks, in the order of the callbacks; a live cue was played for each of
    them and for nothing else. *)
Theorem collision_log_is_append_only (c : Config) (g : Geometry)
    (ts : list Tick) (s : Sim) :
  let fast := filter (audible c) (flat_map contacts (executed c g ts s)) in
  collision_times (log (main_loop c g ts s))
  = collision_times (log s) ++ map (stamp (start_time s)) fast
  /\ cues_played (log (main_loop c g ts s))
     = (cues_played (log s) + length fast)%nat.
Proof.
  revert s. induction ts as [|t ts IH]; intro s; cbn [main_loop executed].
  - cbn [flat_map filter map length]. rewrite app_nil_r. split; [reflexivity | lia].
  - destruct (running s).
    + destruct (IH (loop_body c g t s)) as [Ht Hc]. cbv zeta in Ht, Hc.
      rewrite loop_body_start_time, loop_body_log in Ht.
      rewrite loop_body_log in Hc.
      destruct (step_contacts_spec c (start_time s) (contacts t) (log s))
        as [Ht1 Hc1].
      rewrite Ht1 in Ht. rewrite Hc1 in Hc.
      cbn [flat_map]. rewrite filter_app, map_app, length_app.
      split; [rewrite Ht, <- app_assoc; reflexivity | rewrite Hc; lia].
    + cbn [flat_map filter map length]. rewrite app_nil_r.
      split; [reflexivity | lia].
Qed.

Lemma sorted_prefix {A} (R : A -> A -> Prop) (l1 l2 : list A) :
  StronglySorted R (l1 ++ l2) -> StronglySorted R l1.
Proof.
  induction l1 as [|a l1 IH]; intro H; [constructor|].
  simpl in H. apply StronglySorted_inv in H. destruct H as [Hs Ha].
  constructor; [now apply IH|]. apply Forall_app in Ha. tauto.
Qed.

Lemma sorted_filter {A} (R : A -> A -> Prop) (f : A -> bool) (l : list A) :
  StronglySorted R l -> StronglySorted R (filter f l).
Proof.
  induction 1 as [|a l Hs IH Ha]; simpl; [constructor|].
  destruct (f a); [|exact IH]. constructor; [exact IH|].
  apply Forall_forall. intros x Hx. apply filter_In in Hx.
  rewrite Forall_forall in Ha. now apply Ha.
Qed.

Lemma sorted_map {A B} (R : A -> A -> Prop) (R' : B -> B -> Prop)
    (f : A -> B) (l : list A) :
  (forall a b, R a b -> R' (f a) (f b)) ->
  StronglySorted R l -> StronglySorted R' (map f l).
Proof.
  intro Hf. induction 1 as [|a l Hs IH Ha]; simpl; constructor; [exact IH|].
  apply Forall_forall. intros y Hy. apply in_map_iff in Hy.
  destruct Hy as (x & <- & Hx). rewrite Forall_forall in Ha. auto.
Qed.

Lemma stamp_monotone (start : Z) (k1 k2 : Contact) :
  (hit_ticks k1 <= hit_ticks k2)%Z -> stamp start k1 <= stamp start k2.
Proof.
  intro H. unfold stamp, Qdiv. apply Qmult_le_compat_r; [|discriminate].
  rewrite <- Zle_Qle. lia.
Qed.

(** X10. When the clock read by the callbacks never runs backwards and
    never reads less than start_time, the collision log of a run holds
    non-negative times in non-decreasing order. *)
Theorem collision_times_ordered (c : Config) (g : Geometry) (sp : Space)
    (start : Z) (ts : list Tick) :
  Forall (fun k => (start <= hit_ticks k)%Z) (flat_map contacts ts) ->
  StronglySorted (fun k1 k2 => (hit_ticks k1 <= hit_ticks k2)%Z)
                 (flat_map contacts ts) ->
  let times := collision_times (log (main_loop c g ts (initial sp start))) in
  Forall (fun ct => 0 <= ct) times /\ StronglySorted Qle times.
Proof.
  intros Hge Hs times.
  destruct (collision_log_is_append_only c g ts (initial sp start)) as [Ht _].
  cbv zeta in Ht. cbn [initial log start_time collision_times empty_log app] in Ht.
  unfold times. rewrite Ht. clear Ht times.
  destruct (one_frame_per_executed_tick c g ts (initial sp start))
    as [_ [rest Hr]].
  set (ex := executed c g ts (initial sp start)) in *.
  rewrite Hr, flat_map_app in Hge, Hs.
  apply Forall_app in Hge. destruct Hge as [Hge _].
  apply sorted_prefix in Hs.
  split.
  - apply Forall_forall. intros ct Hct. apply in_map_iff in Hct.
    destruct Hct as (k & <- & Hk). apply filter_In in Hk. destruct Hk as [Hk _].
    rewrite Forall_forall in Hge. specialize (Hge k Hk).
    unfold stamp. apply Qle_shift_div_l; [reflexivity|].
    rewrite Qmult_0_l. apply inject_Z_nonneg. lia.
  - apply (sorted_map (fun k1 k2 => (hit_ticks k1 <= hit_ticks k2)%Z)).
    + intros a b. apply stamp_monotone.
    + now apply sorted_filter.
Qed.

Lemma timed_out_spec (last : option Z) (now : Z) :
  timed_out last now = true
  <-> exists d, last = Some d /\ d <> 0%Z /\ (10000 < now - d)%Z.
Proof.
  unfold timed_out. destruct last as [d|].
  - rewrite andb_true_iff, negb_true_iff, Z.eqb_neq, Z.gtb_lt. split.
    + intros [H1 H2]. exists d. auto.
    + intros (d' & E & H1 & H2). injection E as <-. auto.
  - split; [discriminate | intros (d & E & _); discriminate].
Qed.

(** X11. A running loop stops at a tick exactly when the tick brings a QUIT
    event or the timeout test fires; the test fires exactly when a drop has
    been recorded, at a non-zero clock reading, more than 10000 ms before the
    reading at the end of the tick.  So the loop never stops on its own
    before the first drop, nor within ten seconds of the last one. *)
Theorem loop_stops_by_quit_or_timeout (c : Config) (g : Geometry) (t : Tick)
    (s : Sim) :
  running s = true ->
  (running (loop_body c g t s) = false
   <-> quit t = true \/ timeout_at c t s = true)
  /\ (timeout_at c t s = true
      <-> exists d, last_ball_drop_time (loop_body c g t s) = Some d
                    /\ d <> 0%Z /\ (10000 < end_ticks t - d)%Z).
Proof.
  intro Hr. split.
  - unfold loop_body, timeout_at, dt. cbn [running]. rewrite Hr.
    destruct (timed_out _ _), (quit t); intuition congruence.
  - unfold timeout_at. rewrite timed_out_spec. reflexivity.
Qed.

(** X12. The loop never removes or changes a shape: after any run the space
    is the space before followed by one ball per drop, each created at
    (spawn_x + jitter, spawn_y) with the jitter of an executed tick. *)
Theorem loop_only_adds_balls (c : Config) (g : Geometry) (ts : list Tick)
    (s : Sim) :
  exists drops,
    space (main_loop c g ts s)
    = space s ++ map (fun t => ball_at c g (jitter t)) drops
    /\ Z.of_nat (length drops)
       = (balls_dropped (main_loop c g ts s) - balls_dropped s)%Z
    /\ forall t, In t drops -> In t (executed c g ts s).
Proof.
  revert s. induction ts as [|t ts IH]; intro s; cbn [main_loop executed].
  - exists []. cbn [map length]. rewrite app_nil_r.
    split; [reflexivity|]. split; [lia | intros t []].
  - destruct (running s).
    + destruct (IH (loop_body c g t s)) as (drops & Hsp & Hlen & Hin).
      pose proof (loop_body_spawner c g t s) as H. cbv zeta in H.
      destruct (due c (balls_dropped s) (spawn_timer s + dt t)) eqn:E.
      * destruct H as (Hd & _ & _ & _).
        assert (Hs : space (loop_body c g t s)
                     = space s ++ [ball_at c g (jitter t)]).
        { unfold loop_body. cbn [space]. fold (dt t). rewrite E. reflexivity. }
        exists (t :: drops). cbn [map length].
        rewrite Hsp, Hs, <- app_assoc. split; [reflexivity|].
        split; [lia|]. intros t' [<-|Ht']; [now left | right; now apply Hin].
      * destruct H as (Hd & _ & _ & Hs).
        exists drops. rewrite Hsp, Hs. split; [reflexivity|].
        split; [lia|]. intros t' Ht'. right. now apply Hin.
    + exists []. cbn [map length]. rewrite app_nil_r.
      split; [reflexivity|]. split; [lia | intros t' []].
Qed.

(** The accumulator pays DROP_INTERVAL for every drop and nothing else. *)
Lemma spawn_timer_balance (c : Config) (g : Geometry) (ts : list Tick) :
  forall s,
    spawn_timer (main_loop c g ts s)
    + inject_Z (balls_dropped (main_loop c g ts s)) * DROP_INTERVAL c
    == spawn_timer s + inject_Z (balls_dropped s) * DROP_INTERVAL c
       + elapsed (executed c g ts s).
Proof.
  induction ts as [|t ts IH]; intro s; cbn [main_loop executed].
  - unfold elapsed. cbn [fold_right]. ring.
  - destruct (running s).
    + rewrite IH. unfold elapsed. cbn [fold_right].
      fold (elapsed (executed c g ts (loop_body c g t s))).
      pose proof (loop_body_spawner c g t s) as H. cbv zeta in H.
      destruct (due c (balls_dropped s) (spawn_timer s + dt t)).
      * destruct H as (Hd & Ht & _). rewrite Hd, Ht, inject_Z_plus.
        change (inject_Z 1) with 1. ring.
      * destruct H as (Hd & Ht & _). rewrite Hd, Ht. ring.
    + unfold elapsed. cbn [fold_right]. ring.
Qed.

Lemma spawn_timer_nonneg (c : Config) (g : Geometry) (ts : list Tick) :
  forall s,
    Forall (fun t => (0 <= tick_ms t)%Z) ts -> 0 <= spawn_timer s ->
    0 <= spawn_timer (main_loop c g ts s).
Proof.
  induction ts as [|t ts IH]; intros s Hts Hs; cbn [main_loop]; [exact Hs|].
  destruct (running s); [|exact Hs].
  inversion Hts as [|? ? Ht Hrest]; subst. apply IH; [exact Hrest|].
  pose proof (loop_body_spawner c g t s) as H. cbv zeta in H.
  apply dt_nonneg in Ht.
  destruct (due c (balls_dropped s) (spawn_timer s + dt t)) eqn:E.
  - apply due_spec in E. destruct H as (_ & -> & _). lra.
  - destruct H as (_ & -> & _). lra.
Qed.

(** X13. Time is neither lost nor invented by the spawner: with ticks of
    non-negative length, after any run the accumulator is non-negative and
    spawn_timer + balls_dropped * DROP_INTERVAL is the time accumulated over
    the executed ticks; so at most elapsed / DROP_INTERVAL balls have been
    dropped. *)
Theorem spawner_conserves_time (c : Config) (g : Geometry) (sp : Space)
    (start : Z) (ts : list Tick) :
  Forall (fun t => (0 <= tick_ms t)%Z) ts ->
  let s := main_loop c g ts (initial sp start) in
  let total := elapsed (executed c g ts (initial sp start)) in
  0 <= spawn_timer s
  /\ spawn_timer s + inject_Z (balls_dropped s) * DROP_INTERVAL c == total
  /\ inject_Z (balls_dropped s) * DROP_INTERVAL c <= total.
Proof.
  intros Hts s total.
  assert (H0 : 0 <= spawn_timer s).
  { apply spawn_timer_nonneg; [exact Hts | cbn; discriminate]. }
  pose proof (spawn_timer_balance c g ts (initial sp start)) as Hb.
  fold s in Hb. fold total in Hb. cbn [initial spawn_timer balls_dropped] in Hb.
  assert (Hz : 0.0 + inject_Z 0 * DROP_INTERVAL c == 0) by ring.
  rewrite Hz in Hb.
  set (p := inject_Z (balls_dropped s) * DROP_INTERVAL c) in *.
  repeat split; lra.
Qed.



End LoopExtras.

(* ================================================================== *)
(** ** Further properties of the audio synthesis *)
(* ================================================================== *)

Module AudioExtras.
Import Audio AudioFacts AudioClaims Wav.
Local Open Scope Qc_scope.





Lemma buffer_length_nonneg (c : Config) (frames : nat) :
  (0 < FPS c)%Z -> (0 <= SAMPLE_RATE c)%Z ->
  (0 <= Py.int (inject_Z (SAMPLE_RATE c)
                * (inject_Z (Z.of_nat frames) / inject_Z (FPS c)))%Q)%Z.
Proof.
  intros Hfps Hsr.
  assert (Hdur : (0 <= inject_Z (Z.of_nat frames) / inject_Z (FPS c))%Q).
  { apply Qle_shift_div_l; [now apply inject_Z_pos|].
    rewrite Qmult_0_l. apply inject_Z_nonneg. lia. }
  assert (Hn : (0 <= inject_Z (SAMPLE_RATE c)
                    * (inject_Z (Z.of_nat frames) / inject_Z (FPS c)))%Q).
  { apply Qmult_le_0_compat; [now apply inject_Z_nonneg | exact Hdur]. }
  rewrite (int_nonneg_floor _ Hn). apply Qfloor_resp_le in Hn. exact Hn.
Qed.




(** X17. An event that starts after sample int(SAMPLE_RATE * len(frames) /
    FPS) does not fit in the buffer: with an envelope of two samples or more
    the synthesis raises ValueError, wherever the event stands in the log. *)
Theorem late_event_raises (c : Config) (w : Wave) (frames : nat)
    (cts : list Q) (ct : Q) :
  (0 < FPS c)%Z -> (0 <= SAMPLE_RATE c)%Z ->
  (2 <= length w)%nat ->
  In ct cts ->
  (Py.int (inject_Z (SAMPLE_RATE c)
           * (inject_Z (Z.of_nat frames) / inject_Z (FPS c)))%Q
   < Py.int (ct * inject_Z (SAMPLE_RATE c))%Q)%Z ->
  synthesize c w frames cts = inl Py.ValueError.
Proof.
  intros Hfps Hsr Hw Hin Hlate.
  pose proof (buffer_length_nonneg c frames Hfps Hsr) as HN.
  unfold synthesize. rewrite truediv_ok by (apply inject_Z_nonzero; lia).
  set (N := Py.int (inject_Z (SAMPLE_RATE c)
                    * (inject_Z (Z.of_nat frames) / inject_Z (FPS c)))%Q) in *.
  set (idx := Py.int (ct * inject_Z (SAMPLE_RATE c))%Q) in *.
  unfold zeros. destruct (Z.ltb_spec (N + Z.of_nat (length w)) 0); [lia|].
  set (buf := repeat 0 (Z.to_nat (N + Z.of_nat (length w)))).
  apply in_split in Hin. destruct Hin as (l1 & l2 & ->).
  rewrite <- (overlay_all_permutation (SAMPLE_RATE c) w _ _
                (Permutation_middle l1 l2 ct) buf).
  cbn [overlay_all]. fold idx.
  assert (Hnone : window (length buf) idx (idx + Z.of_nat (length w)) w = None).
  { unfold buf. rewrite repeat_length. unfold window, slice_index.
    destruct (Z.ltb_spec idx 0); [lia|].
    destruct (Z.ltb_spec (idx + Z.of_nat (length w)) 0); [lia|].
    unfold broadcast.
    destruct (Nat.eqb_spec (length w)
                (Z.to_nat (Z.min (idx + Z.of_nat (length w))
                                 (Z.of_nat (Z.to_nat (N + Z.of_nat (length w)))))
                 - Z.to_nat (Z.min idx
                                   (Z.of_nat (Z.to_nat (N + Z.of_nat (length w)))))))
      as [E|E]; [lia|].
    destruct w as [|x [|y w']]; simpl in Hw; try lia. reflexivity. }
  unfold iadd_slice. now rewrite Hnone.
Qed.


End AudioExtras.

(* ================================================================== *)
(** ** The loop of base-1.py *)
(* ================================================================== *)

Module Base1Extras.
Import Layout Base1Loop.
Local Open Scope Q_scope.

Lemma lt_true (a b : Q) : lt a b = true <-> a < b.
Proof.
  unfold lt. rewrite negb_true_iff. split.
  - intro H. apply Qnot_le_lt. intro L. apply Qle_bool_iff in L. congruence.
  - intro H. destruct (Qle_bool b a) eqn:E; [|reflexivity].
    apply Qle_bool_iff in E. lra.
Qed.

Lemma all_still_spec (vs : list (Q * Q)) :
  all_still vs = true
  <-> forall v, In v vs -> Qabs (fst v) < 0.1 /\ Qabs (snd v) < 0.1.
Proof.
  unfold all_still. rewrite forallb_forall. split; intros H v Hv.
  - specialize (H v Hv). apply andb_true_iff in H. destruct H as [Hy Hx].
    apply lt_true in Hy, Hx. split; assumption.
  - destruct (H v Hv) as [Hx Hy]. apply andb_true_iff.
    split; apply lt_true; assumption.
Qed.

(** X19. The loop of base-1.py, while running, stops at a tick exactly when
    the tick brings a QUIT event, or every ball has been dropped and every
    dynamic body moves slower than 0.1 in x and in y.  It never stops on its
    own while balls remain to be dropped. *)
Theorem base1_stops_when_all_at_rest (c : Config) (g : Geometry) (t : Tick)
    (s : Sim) :
  running s = true ->
  (running (loop_body c g t s) = false
   <-> quit t = true
       \/ (balls_dropped (loop_body c g t s) = BALL_COUNT c
           /\ forall v, In v (velocities t) ->
                Qabs (fst v) < 0.1 /\ Qabs (snd v) < 0.1)).
Proof.
  intro Hr. rewrite <- all_still_spec.
  unfold loop_body. cbn [running balls_dropped]. rewrite Hr.
  set (d := if Loop.due c (balls_dropped s) _ then _ else _).
  destruct (Z.eqb_spec d (BALL_COUNT c)) as [E|E];
    destruct (all_still (velocities t)), (quit t); cbn [andb];
    intuition congruence.
Qed.

(** X20. With BALL_COUNT = 0 and no dynamic body in the space, the loop of
    base-1.py stops by itself after its first tick, having saved one frame
    and created nothing. *)
Theorem base1_without_balls_stops_at_once (c : Config) (g : Geometry)
    (sp : Space) (t : Tick) (ts : list Tick) :
  BALL_COUNT c = 0%Z -> velocities t = [] ->
  let s := main_loop c g (t :: ts) (initial sp) in
  running s = false /\ frames s = [frame_ticks t]
  /\ balls_dropped s = 0%Z /\ space s = sp.
Proof.
  intros Hn Hv s.
  assert (Hd : Loop.due c 0 (0.0 + inject_Z (tick_ms t) / 1000) = false).
  { unfold Loop.due. rewrite Hn. reflexivity. }
  assert (Hs1 : loop_body c g t (initial sp)
                = {| space := sp; balls_dropped := 0;
                     spawn_timer := 0.0 + inject_Z (tick_ms t) / 1000;
                     running := false; frames := [frame_ticks t] |}).
  { unfold loop_body. cbn [initial space balls_dropped spawn_timer running frames].
    rewrite Hd, Hv, Hn. cbn [Z.eqb all_still forallb andb app]. reflexivity. }
  unfold s. cbn [main_loop initial running].
  fold (initial sp). rewrite Hs1.
  destruct ts; cbn [main_loop running]; repeat split.
Qed.

End Base1Extras.

(* ================================================================== *)
(** ** Worked runs of the further properties *)
(* ================================================================== *)

Module Worked.
Import Classifier Layout Loop Obs Trace Audio Wav Samples.
Import LayoutExtras LoopExtras AudioExtras.
Local Open Scope Q_scope.

Ltac by_evaluation :=
  first [ reflexivity | vm_compute; reflexivity | vm_compute; discriminate ].

Lemma galton_geometry_ok : layout_constants galton = inr galton_geometry.
Proof. vm_compute. reflexivity. Qed.

(** X1 on the first peg of the top row of galton.py. *)
Lemma first_peg_inside_canvas :
  let g := galton_geometry in
  let p := peg_at galton g (left_margin g) 0 0 in
  (1 <= LEVELS galton)%Z /\ (0 < SCREEN_WIDTH galton)%Z
  /\ (2 * PEG_RADIUS galton <= SCREEN_WIDTH galton)%Z
  /\ nth_error (peg_rows galton g) 0 = Some (row_shapes galton g 0)
  /\ In p (row_shapes galton g 0)
  /\ 2 <= shape_x p /\ shape_x p <= 512 - 2.
Proof.
  intros g p.
  assert (H1 : (1 <= LEVELS galton)%Z) by by_evaluation.
  assert (H2 : (0 < SCREEN_WIDTH galton)%Z) by by_evaluation.
  assert (H3 : (2 * PEG_RADIUS galton <= SCREEN_WIDTH galton)%Z) by by_evaluation.
  assert (H4 : nth_error (peg_rows galton g) 0 = Some (row_shapes galton g 0))
    by reflexivity.
  assert (H5 : In p (row_shapes galton g 0)) by (left; reflexivity).
  repeat (split; [assumption|]).
  apply (pegs_inside_canvas_width galton g 0 _ p H1 H2 H3 galton_geometry_ok H4 H5).
Defined.


(** X3 on galton.py: the peg found at place (0, 0) is found nowhere else. *)
Lemma first_peg_is_alone :
  let g := galton_geometry in
  let p := peg_at galton g (left_margin g) 0 0 in
  (1 <= LEVELS galton)%Z /\ (0 < SCREEN_WIDTH galton)%Z
  /\ (0 < SCREEN_HEIGHT galton)%Z
  /\ forall k i row q,
       nth_error (peg_rows galton g) k = Some row -> nth_error row i = Some q ->
       shape_x q == shape_x p -> shape_y q == shape_y p ->
       k = 0%nat /\ i = 0%nat.
Proof.
  intros g p.
  assert (H1 : (1 <= LEVELS galton)%Z) by by_evaluation.
  assert (H2 : (0 < SCREEN_WIDTH galton)%Z) by by_evaluation.
  assert (H3 : (0 < SCREEN_HEIGHT galton)%Z) by by_evaluation.
  repeat (split; [assumption|]).
  intros k i row q Hk Hi Hx Hy.
  apply (pegs_never_coincide galton g k 0 i 0 row (row_shapes galton g 0) q p
           H1 H2 H3 galton_geometry_ok Hk Hi eq_refl eq_refl Hx Hy).
Defined.

(** X4 on galton.py: 105 pegs. *)
Lemma galton_has_105_pegs :
  (1 <= LEVELS galton)%Z /\ (0 < SCREEN_WIDTH galton)%Z
  /\ (2 * PEG_RADIUS galton <= SCREEN_WIDTH galton)%Z
  /\ exists pegs, layout_pegs galton galton_geometry [] = Returned tt pegs
                  /\ Z.of_nat (length pegs) = 105%Z.
Proof.
  assert (H1 : (1 <= LEVELS galton)%Z) by by_evaluation.
  assert (H2 : (0 < SCREEN_WIDTH galton)%Z) by by_evaluation.
  assert (H3 : (2 * PEG_RADIUS galton <= SCREEN_WIDTH galton)%Z) by by_evaluation.
  repeat (split; [assumption|]).
  destruct (total_peg_count galton galton_geometry H1 H2 H3 galton_geometry_ok)
    as (pegs & Hp & Hn).
  exists pegs. split; [exact Hp|]. rewrite Hn. reflexivity.
Defined.

(** X5 on the first peg of galton.py. *)
Lemma first_peg_height :
  let g := galton_geometry in
  let p := peg_at galton g (left_margin g) 0 0 in
  (1 <= LEVELS galton)%Z /\ (0 < SCREEN_HEIGHT galton)%Z
  /\ In p (row_shapes galton g 0)
  /\ 0 < shape_y p
  /\ shape_y p + 3 * offset_y g <= 768
  /\ y_bottom galton g + 3 * offset_y g == 768.
Proof.
  intros g p.
  assert (H1 : (1 <= LEVELS galton)%Z) by by_evaluation.
  assert (H2 : (0 < SCREEN_HEIGHT galton)%Z) by by_evaluation.
  assert (H5 : In p (row_shapes galton g 0)) by (left; reflexivity).
  repeat (split; [assumption|]).
  destruct (rows_leave_room_for_bins galton g 0 (row_shapes galton g 0) p
              H1 H2 galton_geometry_ok eq_refl H5) as (_ & A & B & C).
  repeat split; assumption.
Defined.

(** X6 on galton.py. *)
Lemma galton_separators_ordered :
  (1 <= LEVELS galton)%Z /\ (0 < SCREEN_WIDTH galton)%Z
  /\ (0 < PEG_RADIUS galton)%Z
  /\ (2 * PEG_RADIUS galton <= SCREEN_WIDTH galton)%Z
  /\ StronglySorted Qlt (walls_x galton galton_geometry).
Proof.
  assert (H1 : (1 <= LEVELS galton)%Z) by by_evaluation.
  assert (H2 : (0 < SCREEN_WIDTH galton)%Z) by by_evaluation.
  assert (H0 : (0 < PEG_RADIUS galton)%Z) by by_evaluation.
  assert (H3 : (2 * PEG_RADIUS galton <= SCREEN_WIDTH galton)%Z) by by_evaluation.
  repeat (split; [assumption|]).
  apply (separators_strictly_ordered galton galton_geometry H1 H2 H0 H3
           galton_geometry_ok).
Defined.

(** X7 on galton.py, after two ticks of 300 ms. *)
Lemma galton_board_run_counts_balls :
  let g := galton_geometry in
  let ts := [quiet_tick 300 300; quiet_tick 300 600] in
  (0 <= BALL_COUNT galton)%Z
  /\ exists sp,
       build_board galton [] = Returned tt sp
       /\ balls_in sp = 0%Z
       /\ balls_in (space (main_loop galton g ts (initial sp 0)))
          = balls_dropped (main_loop galton g ts (initial sp 0)).
Proof.
  intros g ts.
  assert (H1 : (0 <= BALL_COUNT galton)%Z) by by_evaluation.
  split; [exact H1|].
  destruct (build_board galton []) as [u sp|e sp] eqn:Hb;
    [|vm_compute in Hb; discriminate].
  destruct u. exists sp. split; [reflexivity|].
  destruct (board_starts_without_balls galton g sp 0 ts H1 galton_geometry_ok Hb)
    as (A & _ & B).
  split; assumption.
Defined.

(** X10 on a run with three contacts, the second too slow to be logged. *)
Lemma two_fast_hits_logged_in_order :
  let g := galton_geometry in
  let ts := [contact_tick 16 1100 [hit 60 1100; hit 10 1105];
             contact_tick 16 1200 [hit (-80) 1200]] in
  Forall (fun k => (1000 <= hit_ticks k)%Z) (flat_map contacts ts)
  /\ StronglySorted (fun k1 k2 => (hit_ticks k1 <= hit_ticks k2)%Z)
                    (flat_map contacts ts)
  /\ length (collision_times (log (main_loop galton g ts (initial [] 1000))))
     = 2%nat
  /\ StronglySorted Qle
       (collision_times (log (main_loop galton g ts (initial [] 1000)))).
Proof.
  intros g ts.
  assert (H1 : Forall (fun k => (1000 <= hit_ticks k)%Z) (flat_map contacts ts)).
  { repeat constructor; vm_compute; discriminate. }
  assert (H2 : StronglySorted (fun k1 k2 => (hit_ticks k1 <= hit_ticks k2)%Z)
                 (flat_map contacts ts)).
  { repeat constructor; vm_compute; discriminate. }
  split; [exact H1|]. split; [exact H2|]. split; [reflexivity|].
  apply (collision_times_ordered galton g [] 1000 ts H1 H2).
Defined.

(** X11 on galton.py: a ball dropped at clock reading 500, a tick ending at
    reading 10600. *)
Lemma timeout_ten_seconds_after_drop :
  let g := galton_geometry in
  let s := loop_body galton g (quiet_tick 300 500) (initial [] 0) in
  let t := quiet_tick 16 10600 in
  running s = true
  /\ timeout_at galton t s = true
  /\ running (loop_body galton g t s) = false.
Proof.
  intros g s t.
  assert (H1 : running s = true) by reflexivity.
  assert (H2 : timeout_at galton t s = true) by by_evaluation.
  split; [exact H1|]. split; [exact H2|].
  apply (proj1 (loop_stops_by_quit_or_timeout galton g t s H1)).
  right. exact H2.
Defined.

(** X13 on two ticks of 300 ms: two balls, 100 ms left in the accumulator. *)
Lemma two_long_ticks_balance :
  let g := galton_geometry in
  let ts := [quiet_tick 300 300; quiet_tick 300 600] in
  let s := main_loop galton g ts (initial [] 0) in
  Forall (fun t => (0 <= tick_ms t)%Z) ts
  /\ balls_dropped s = 2%Z
  /\ spawn_timer s + inject_Z (balls_dropped s) * DROP_INTERVAL galton
     == elapsed (executed galton g ts (initial [] 0)).
Proof.
  intros g ts s.
  assert (H1 : Forall (fun t => (0 <= tick_ms t)%Z) ts).
  { repeat constructor; vm_compute; discriminate. }
  split; [exact H1|]. split; [reflexivity|].
  apply (spawner_conserves_time galton g [] 0 ts H1).
Defined.




(** X17 on one frame of galton.py: an event at 0.5 s, after the end of a
    run of 1/60 s. *)
Lemma event_after_the_run_raises :
  (0 < FPS galton)%Z /\ (0 <= SAMPLE_RATE galton)%Z
  /\ (2 <= length short_tick)%nat
  /\ In 0.5 [0.001; 0.5]
  /\ synthesize galton short_tick 1 [0.001; 0.5] = inl Py.ValueError.
Proof.
  assert (H1 : (0 < FPS galton)%Z) by by_evaluation.
  assert (H2 : (0 <= SAMPLE_RATE galton)%Z) by by_evaluation.
  assert (H3 : (2 <= length short_tick)%nat) by (cbn; lia).
  assert (H4 : In 0.5 [0.001; 0.5]) by (right; left; reflexivity).
  repeat (split; [assumption|]).
  apply (late_event_raises galton short_tick 1 [0.001; 0.5] 0.5 H1 H2 H3 H4).
  by_evaluation.
Defined.


End Worked.

Module Base1Worked.
Import Layout Base1Loop Base1Extras Samples.
Local Open Scope Q_scope.

(** X19 on base-1.py with one ball: it is dropped by a tick of 300 ms and
    found nearly at rest at the end of that tick. *)
Lemma base1_single_ball_at_rest :
  let c := with_ball_count 1 base1 in
  let t := {| tick_ms := 300; quit := false; frame_ticks := 300;
              velocities := [(0, 0.05)] |} in
  running (initial []) = true
  /\ running (loop_body c galton_geometry t (initial [])) = false.
Proof.
  intros c t.
  assert (H1 : running (initial []) = true) by reflexivity.
  split; [exact H1|].
  apply (proj2 (base1_stops_when_all_at_rest c galton_geometry t (initial []) H1)).
  right. split; [reflexivity|].
  intros v [<-|[]]. split; vm_compute; reflexivity.
Defined.

(** X20 on base-1.py with BALL_COUNT = 0. *)
Lemma base1_zero_balls_one_frame :
  let c := with_ball_count 0 base1 in
  let t := {| tick_ms := 16; quit := false; frame_ticks := 16;
              velocities := [] |} in
  BALL_COUNT c = 0%Z /\ velocities t = []
  /\ running (main_loop c galton_geometry [t; t; t] (initial [])) = false
  /\ frames (main_loop c galton_geometry [t; t; t] (initial [])) = [16%Z].
Proof.
  intros c t.
  assert (H1 : BALL_COUNT c = 0%Z) by reflexivity.
  assert (H2 : velocities t = []) by reflexivity.
  repeat (split; [assumption|]).
  destruct (base1_without_balls_stops_at_once c galton_geometry [] t [t; t] H1 H2)
    as (A & B & _).
  split; [exact A | exact B].
Defined.

End Base1Worked.
